(** * codescribe: the customers store, its CRUD tools, seeding, the CLI loop
      and the OAuth2 credential helper

    A shallow embedding of the Python sources
    - [DB_agent/tools/{create,retrieve,update,delete}.py],
    - [DB_agent/database.py],
    - [DB_agent/agent.py] (the loop of [main]),
    - [src/codescribe/oauth_helper.py],
    followed by the properties the specification states about them.

    Python exceptions are modelled by the [outcome] type, mutable state
    (the customers table, the token file) by explicit state passing and
    terminal / network / browser effects by a list of events. *)

From stdpp Require Import base option list strings gmap.
From Stdlib Require Import ZArith Lia.

Local Open Scope Z_scope.
Local Open Scope string_scope.
Local Open Scope list_scope.

(** ** Python exceptions *)

(** The result of a call that either returns a value or raises. *)
Inductive outcome (E A : Type) : Type :=
| Returned (a : A)
| Raised (e : E).
Arguments Returned {E A} a.
Arguments Raised {E A} e.

(** ** The customers table

    The table is the one declared by the statement executed in
    [setup_database_schema] (database.py, lines 49-57):
<<
    CREATE TABLE IF NOT EXISTS customers (
        id SERIAL PRIMARY KEY,
        email TEXT UNIQUE NOT NULL,
        full_name TEXT NOT NULL,
        bio TEXT NOT NULL,
        created_at TIMESTAMP WITH TIME ZONE DEFAULT NOW()
    );
>>
    A column value is [None] for SQL NULL. *)
Module customers.

Record Row : Type := mkRow {
  id : option Z;
  email : option string;
  full_name : option string;
  bio : option string;
  created_at : option Z
}.

#[export] Instance Row_eq_dec : EqDecision Row.
Proof. solve_decision. Defined.

(** The rows in storage order and the sequence behind [id SERIAL]. *)
Record Table : Type := mkTable {
  rows : list Row;
  customers_id_seq : Z
}.

(** What the database answers when it refuses a statement: a constraint
    violation (SQLSTATE 23502, 23505), a text value holding the NUL
    character (22P05), a sequence with no value left (2200H), a table that
    does not exist (42P01). *)
Inductive pg_error : Type :=
| not_null_violation (column : string)
| unique_violation (constraint : string)
| untranslatable_character
| sequence_generator_limit_exceeded (sequence : string)
| undefined_table (relation : string).

(** [id SERIAL] is a 4-byte integer: its sequence stops at this value. *)
Definition int4_max : Z := 2147483647.

(** A [str] is stored as [TEXT] only if it does not hold the character
    NUL. *)
Fixpoint has_NUL (s : string) : bool :=
  match s with
  | EmptyString => false
  | String c s' => bool_decide (c = Ascii.zero) || has_NUL s'
  end.

Definition text_ok (v : option string) : bool :=
  match v with
  | Some s => negb (has_NUL s)
  | None => true
  end.

(** The triples (email, full_name, bio) the table can store. *)
Definition valid_triple (e n b : string) : Prop :=
  has_NUL e = false ∧ has_NUL n = false ∧ has_NUL b = false.

#[export] Instance pg_error_eq_dec : EqDecision pg_error.
Proof. solve_decision. Defined.

(** [NOT NULL] on email, full_name and bio; [PRIMARY KEY] implies it for id. *)
Definition check_not_null (r : Row) : option pg_error :=
  match id r, email r, full_name r, bio r with
  | None, _, _, _ => Some (not_null_violation "id")
  | _, None, _, _ => Some (not_null_violation "email")
  | _, _, None, _ => Some (not_null_violation "full_name")
  | _, _, _, None => Some (not_null_violation "bio")
  | Some _, Some _, Some _, Some _ => None
  end.

(** [PRIMARY KEY] on id and [UNIQUE] on email, against the stored rows
    (run after [check_not_null], so the keys compared are not NULL). *)
Definition check_unique (stored : list Row) (r : Row) : option pg_error :=
  if decide (id r ∈ id <$> stored) then Some (unique_violation "customers_pkey")
  else if decide (email r ∈ email <$> stored) then Some (unique_violation "customers_email_key")
  else None.

Definition check_constraints (stored : list Row) (r : Row) : option pg_error :=
  match check_not_null r with
  | Some err => Some err
  | None => check_unique stored r
  end.

(** [INSERT INTO customers (email, full_name, bio) VALUES (e, n, b)] at time
    [now]: id and created_at take their defaults.  A value holding NUL is
    refused before anything else is done; then the next id is taken from
    the sequence, which raises when it has passed [int4_max]; that value is
    consumed whether or not the constraints accept the row.
    [customers_id_seq] is the value the sequence hands out next. *)
Definition insert (now : Z) (e n b : option string) (t : Table)
  : outcome pg_error Row * Table :=
  if negb (text_ok e && text_ok n && text_ok b) then
    (Raised untranslatable_character, t)
  else if decide (customers_id_seq t > int4_max) then
    (Raised (sequence_generator_limit_exceeded "customers_id_seq"), t)
  else
    let r := mkRow (Some (customers_id_seq t)) e n b (Some now) in
    match check_constraints (rows t) r with
    | Some err => (Raised err, mkTable (rows t) (customers_id_seq t + 1))
    | None => (Returned r, mkTable (rows t ++ [r]) (customers_id_seq t + 1))
    end.

(** The filter [WHERE email = e]; a NULL email matches nothing. *)
Definition email_is (e : string) (r : Row) : Prop := email r = Some e.

#[export] Instance email_is_dec e r : Decision (email_is e r).
Proof. unfold email_is. apply _. Defined.

(** [SELECT * FROM customers WHERE email = e]. *)
Definition select_eq_email (e : string) (t : Table) : list Row :=
  filter (email_is e) (rows t).

(** [SET full_name = n, bio = b] on one row. *)
Definition set_name_bio (n b : option string) (r : Row) : Row :=
  mkRow (id r) (email r) n b (created_at r).

(** [UPDATE customers SET full_name = n, bio = b WHERE email = e RETURNING *]:
    a NULL in a [NOT NULL] column is refused as soon as one row is touched. *)
Definition update_eq_email (e : string) (n b : option string) (t : Table)
  : outcome pg_error (list Row) * Table :=
  match filter (email_is e) (rows t), n, b with
  | _ :: _, None, _ => (Raised (not_null_violation "full_name"), t)
  | _ :: _, _, None => (Raised (not_null_violation "bio"), t)
  | matched, _, _ =>
      (Returned (set_name_bio n b <$> matched),
       mkTable ((λ r, if decide (email_is e r) then set_name_bio n b r else r) <$> rows t)
               (customers_id_seq t))
  end.

(** [DELETE FROM customers WHERE email = e RETURNING *]. *)
Definition delete_eq_email (e : string) (t : Table) : list Row * Table :=
  (filter (email_is e) (rows t),
   mkTable (filter (λ r, ¬ email_is e r) (rows t)) (customers_id_seq t)).

(** [SELECT COUNT( * ) FROM customers]. *)
Definition count (t : Table) : Z := Z.of_nat (length (rows t)).

(** The states the table can be in: the declared constraints hold and the
    sequence is ahead of every id it has handed out. *)
Record wf (t : Table) : Prop := mk_wf {
  wf_not_null : Forall (λ r, check_not_null r = None) (rows t);
  wf_pkey : NoDup (id <$> rows t);
  wf_email_key : NoDup (email <$> rows t);
  wf_seq : Forall (λ r, ∀ i, id r = Some i → i < customers_id_seq t) (rows t)
}.

End customers.

(** ** DB_agent/tools: the four accessors

    [ctx.deps] is the store client; the table it talks to is threaded
    through each call, and [now] is the store's clock at the time of the
    call. *)
Module tools.
Import customers.

(** What [execute()] returns. *)
Record APIResponse : Type := mkAPIResponse {
  data : list Row;
  count : option Z
}.

(** What [execute()] raises when the store refuses the statement. *)
Inductive APIError : Type :=
| mkAPIError (details : pg_error).

(** create.py, lines 8-26:
    [ctx.deps.table("customers").insert({...}).execute()]. *)
Definition create_customer (now : Z) (email full_name bio : string) (t : Table)
  : outcome APIError APIResponse * Table :=
  match insert now (Some email) (Some full_name) (Some bio) t with
  | (Returned r, t') => (Returned (mkAPIResponse [r] None), t')
  | (Raised err, t') => (Raised (mkAPIError err), t')
  end.

(** retrieve.py, lines 8-25:
    [ctx.deps.table("customers").select("*").eq("email", email).execute()]. *)
Definition get_customer_by_email (email : string) (t : Table)
  : outcome APIError APIResponse * Table :=
  (Returned (mkAPIResponse (select_eq_email email t) None), t).

(** update.py, lines 8-27:
    [ctx.deps.table("customers").update({...}).eq("email", email).execute()]. *)
Definition update_customer_by_email (email full_name bio : string) (t : Table)
  : outcome APIError APIResponse * Table :=
  match update_eq_email email (Some full_name) (Some bio) t with
  | (Returned updated, t') => (Returned (mkAPIResponse updated None), t')
  | (Raised err, t') => (Raised (mkAPIError err), t')
  end.

(** delete.py, lines 8-20:
    [ctx.deps.table("customers").delete().eq("email", email).execute()]. *)
Definition delete_customer_by_email (email : string) (t : Table)
  : outcome APIError APIResponse * Table :=
  let '(deleted, t') := delete_eq_email email t in
  (Returned (mkAPIResponse deleted None), t').

End tools.

(** ** DB_agent/database.py *)
Module database.
Import customers.

(** The keyword arguments of [psycopg2.connect]. *)
Record kwargs : Type := mk_kwargs {
  host : string;
  port : string;
  database : string;
  user : string;
  password : option string
}.

#[export] Instance kwargs_eq_dec : EqDecision kwargs.
Proof. solve_decision. Defined.

(** An open connection remembers what it was opened with. *)
Record connection : Type := mk_connection { dsn : kwargs }.

(** The server side of [psycopg2.connect]: the error it answers with, or
    [None] when it accepts the connection. *)
Class Postgres : Type := { refuses : kwargs → option string }.

(** [load_dotenv()]: the assignments of the .env file are added to
    [os.environ], which keeps the variables it already has. *)
Definition load_dotenv (dotenv environ : gmap string string) : gmap string string :=
  environ ∪ dotenv.

(** [os.environ.get(key, default)]. *)
Definition environ_get (environ : gmap string string) (key dflt : string) : string :=
  default dflt (environ !! key).

(** What the functions of this file print. *)
Inductive message : Type :=
| Error_connecting_to_database (e : string)
| Database_already_contains_data_skipping_seed
| Successfully_seeded_database (n : nat)
| Error_seeding_database (e : pg_error).

(** The arguments [get_database_connection] passes to [psycopg2.connect]
    (lines 22-28), read from [os.environ] after [load_dotenv()]. *)
Definition connect_kwargs (dotenv environ : gmap string string) : kwargs :=
  let environ := load_dotenv dotenv environ in
  {| host := "localhost";
     port := environ_get environ "POSTGRES_PORT" "5432";
     database := "postgres";
     user := "postgres";
     password := environ !! "POSTGRES_PASSWORD" |}.

(** Lines 12-32: the connection, or [None] after printing the error. *)
Definition get_database_connection `{Postgres} (dotenv environ : gmap string string)
  : option connection * list message :=
  let args := connect_kwargs dotenv environ in
  match refuses args with
  | None => (Some (mk_connection args), [])
  | Some e => (None, [Error_connecting_to_database e])
  end.

(** Lines 91-95. *)
Definition sample_customers : list (string * string * string) :=
  [ ("johndoe@gmail.com", "John Doe", "I am a software engineer");
    ("janedoe@gmail.com", "Jane Doe", "I am a data scientist");
    ("jimdoe@gmail.com", "Jim Doe", "I am a product manager") ].

(** [cur.executemany("INSERT INTO customers (email, full_name, bio) VALUES
    (%s, %s, %s)", params)]: one insert per tuple, stopping at the first
    that raises. *)
Fixpoint executemany (now : Z) (params : list (string * string * string)) (t : Table)
  : outcome pg_error unit * Table :=
  match params with
  | [] => (Returned (), t)
  | (e, n, b) :: params' =>
      match insert now (Some e) (Some n) (Some b) t with
      | (Returned _, t') => executemany now params' t'
      | (Raised err, t') => (Raised err, t')
      end
  end.

(** Lines 69-109, on the database the connection reaches: the customers
    table, or [None] when there is no such table ([SELECT COUNT] then
    raises).  The inserts run in one transaction started at [now]; when a
    statement raises, the error is printed and the connection is closed
    without a commit, so the rows are the ones from before (the sequence
    keeps the values it handed out). *)
Definition seed_database `{Postgres} (dotenv environ : gmap string string)
    (now : Z) (db : option Table) : bool * option Table * list message :=
  match get_database_connection dotenv environ with
  | (None, out) => (false, db, out)
  | (Some conn, out) =>
      match db with
      | None => (false, None, out ++ [Error_seeding_database (undefined_table "customers")])
      | Some t =>
          if decide (count t > 0) then
            (true, Some t, out ++ [Database_already_contains_data_skipping_seed])
          else
            match executemany now sample_customers t with
            | (Returned _, t') =>
                (true, Some t',
                 out ++ [Successfully_seeded_database (length sample_customers)])
            | (Raised err, t') =>
                (false, Some (mkTable (rows t) (customers_id_seq t')),
                 out ++ [Error_seeding_database err])
            end
      end
  end.

(** A connection parameter is taken from the environment when it is the
    value of some variable there, with a fallback for when the variable is
    not set. *)
Definition taken_from_environment (parameter : kwargs → option string) : Prop :=
  ∃ (variable : string) (fallback : option string),
    ∀ dotenv environ : gmap string string,
      parameter (connect_kwargs dotenv environ)
      = match load_dotenv dotenv environ !! variable with
        | Some v => Some v
        | None => fallback
        end.

End database.

(** ** DB_agent/agent.py: the interaction loop of [main] (lines 117-143)

    A [str] is a [string] whose characters are the code points below 256;
    [isspace] and [lower] are Python's on that range. *)
Module agent.

(** [str.isspace] on one character: TAB..CR, FS..US, SPACE, NEL and NBSP. *)
Definition isspace (c : Ascii.ascii) : bool :=
  let n := Ascii.N_of_ascii c in
  ((9 <=? n) && (n <=? 13) || (28 <=? n) && (n <=? 32) || (n =? 133) || (n =? 160))%N.

Fixpoint lstrip (s : string) : string :=
  match s with
  | EmptyString => EmptyString
  | String c s' => if isspace c then lstrip s' else s
  end.

Fixpoint rstrip (s : string) : string :=
  match s with
  | EmptyString => EmptyString
  | String c s' =>
      match rstrip s' with
      | EmptyString => if isspace c then EmptyString else String c EmptyString
      | kept => String c kept
      end
  end.

(** [str.strip()]: leading and trailing whitespace removed. *)
Definition strip (s : string) : string := rstrip (lstrip s).

(** [str.lower] on one character: A..Z and the capital letters of Latin-1. *)
Definition lower_char (c : Ascii.ascii) : Ascii.ascii :=
  let n := Ascii.N_of_ascii c in
  if ((65 <=? n) && (n <=? 90) || (192 <=? n) && (n <=? 222) && negb (n =? 215))%N
  then Ascii.ascii_of_N (n + 32)
  else c.

Fixpoint lower (s : string) : string :=
  match s with
  | EmptyString => EmptyString
  | String c s' => String (lower_char c) (lower s')
  end.

(** What [input()] does on one call: a line (without its newline), end of
    input, or Ctrl-C. *)
Inductive stdin_item : Type :=
| Line (s : string)
| EOFError
| KeyboardInterrupt.

(** What [agent.run_sync] raises. *)
Inductive run_error : Type :=
| Exception (e : string)
| Interrupt.

(** What the loop prints. *)
Inductive message : Type :=
| Goodbye
| Processing_your_request
| Agent (data : string)
| Error (e : string)
| Interrupted_by_user
| An_unexpected_error_occurred (e : string)
| blank.

#[export] Instance message_eq_dec : EqDecision message.
Proof. solve_decision. Defined.

(** What the loop does to the outside. *)
Inductive event : Type :=
| input
| print (m : message)
| run_sync (user_prompt : string).

#[export] Instance event_eq_dec : EqDecision event.
Proof. solve_decision. Defined.

(** How a run of the loop ends, as far as the given input goes. *)
Inductive status : Type :=
| returned      (* [break]: main returns *)
| interrupted   (* KeyboardInterrupt raised by [input()] leaves main *)
| waiting.      (* the given input is used up *)

(** The loop over the successive results of [input()].  [answers] holds
    the outcomes of the successive calls of [agent.run_sync]: a call takes
    the first one. *)
Fixpoint loop (stdin : list stdin_item) (answers : list (outcome run_error string))
  : list event * status :=
  match stdin with
  | [] => ([], waiting)
  | KeyboardInterrupt :: _ => ([input], interrupted)
  | EOFError :: stdin' =>
      let '(out, st) := loop stdin' answers in
      (input :: print (An_unexpected_error_occurred "EOF when reading a line")
             :: print blank :: out, st)
  | Line l :: stdin' =>
      let user_input := strip l in
      if decide (lower user_input ∈ ["quit"; "exit"; "q"]) then
        ([input; print Goodbye], returned)
      else if decide (user_input = "") then
        let '(out, st) := loop stdin' answers in (input :: out, st)
      else
        match answers with
        | [] => ([input; print Processing_your_request; run_sync user_input], waiting)
        | Returned data :: answers' =>
            let '(out, st) := loop stdin' answers' in
            (input :: print Processing_your_request :: run_sync user_input
                   :: print (Agent data) :: print blank :: print blank :: out, st)
        | Raised (Exception e) :: answers' =>
            let '(out, st) := loop stdin' answers' in
            (input :: print Processing_your_request :: run_sync user_input
                   :: print (Error e) :: print blank :: print blank :: out, st)
        | Raised Interrupt :: _ =>
            ([input; print Processing_your_request; run_sync user_input;
              print Interrupted_by_user], returned)
        end
  end.

End agent.

(** ** src/codescribe/oauth_helper.py *)
Module oauth_helper.

(** A [google.oauth2.credentials.Credentials] object, with the properties
    the helper reads. *)
Record Credentials : Type := mkCredentials {
  token : option string;
  refresh_token : option string;
  expired : bool;
  valid : bool
}.

#[export] Instance Credentials_eq_dec : EqDecision Credentials.
Proof. solve_decision. Defined.

(** The calls into the google-auth libraries. *)
Class GoogleAuth : Type := {
  (* Credentials.from_authorized_user_file, on the content of the file *)
  from_authorized_user_file : string → outcome string Credentials;
  (* creds.to_json() *)
  to_json : Credentials → string;
  (* creds.refresh(Request()): the credential as the request leaves it *)
  refresh : Credentials → outcome string Credentials;
  (* InstalledAppFlow.from_client_secrets_file(...).run_local_server(port=0),
     on the content of credentials.json *)
  run_local_server : string → outcome string Credentials
}.

(** The two files under [project_root]: their content when they exist, and
    the error [open(token_file, 'w')] raises, if it does. *)
Record files : Type := mk_files {
  credentials_file : option string;
  token_file : option string;
  token_file_open_error : option string
}.

Inductive message : Type :=
| Loaded_existing_OAuth_credentials
| Error_loading_existing_credentials (e : string)
| Refreshed_OAuth_credentials
| Error_refreshing_credentials (e : string)
| Credentials_file_not_found
| Please_download_your_OAuth2_credentials
| Console_url
| Starting_OAuth2_flow
| A_browser_window_will_open
| OAuth2_authentication_completed
| OAuth2_flow_failed (e : string)
| Credentials_saved
| Error_saving_credentials (e : string).

#[export] Instance message_eq_dec : EqDecision message.
Proof. solve_decision. Defined.

Inductive event : Type :=
| print (m : message)
| refresh_request          (* the network request of [creds.refresh] *)
| browser_flow             (* the consent flow of [run_local_server] *)
| open_token_file_w.       (* [open(self.token_file, 'w')] *)

#[export] Instance event_eq_dec : EqDecision event.
Proof. solve_decision. Defined.

(** Truth value of [creds.refresh_token]: [None] and the empty string are
    false. *)
Definition truthy (s : option string) : bool :=
  match s with
  | None | Some EmptyString => false
  | Some _ => true
  end.

(** Lines 68-89. *)
Definition _run_oauth_flow `{GoogleAuth} (fs : files) : option Credentials * list event :=
  match credentials_file fs with
  | None =>
      (None, [print Credentials_file_not_found;
              print Please_download_your_OAuth2_credentials; print Console_url])
  | Some secrets =>
      match run_local_server secrets with
      | Returned creds =>
          (Some creds, [print Starting_OAuth2_flow; print A_browser_window_will_open;
                        browser_flow; print OAuth2_authentication_completed])
      | Raised e =>
          (None, [print Starting_OAuth2_flow; print A_browser_window_will_open;
                  browser_flow; print (OAuth2_flow_failed e)])
      end
  end.

(** Lines 91-98. *)
Definition _save_credentials `{GoogleAuth} (creds : Credentials) (fs : files)
  : files * list event :=
  match token_file_open_error fs with
  | None =>
      (mk_files (credentials_file fs) (Some (to_json creds)) None,
       [open_token_file_w; print Credentials_saved])
  | Some e => (fs, [open_token_file_w; print (Error_saving_credentials e)])
  end.

(** Lines 35-66. *)
Definition get_credentials `{GoogleAuth} (fs : files)
  : option Credentials * files * list event :=
  (* lines 37-46 *)
  let '(creds, out1) :=
    match token_file fs with
    | Some content =>
        match from_authorized_user_file content with
        | Returned c => (Some c, [print Loaded_existing_OAuth_credentials])
        | Raised e => (None, [print (Error_loading_existing_credentials e)])
        end
    | None => (None, [])
    end in
  (* lines 49-59 *)
  let '(creds, out2) :=
    if match creds with Some c => negb (valid c) | None => true end then
      let '(creds, out_refresh) :=
        match creds with
        | Some c =>
            if expired c && truthy (refresh_token c) then
              match refresh c with
              | Returned c' => (Some c', [refresh_request; print Refreshed_OAuth_credentials])
              | Raised e => (None, [refresh_request; print (Error_refreshing_credentials e)])
              end
            else (creds, [])
        | None => (creds, [])
        end in
      match creds with
      | None => let '(creds, out_flow) := _run_oauth_flow fs in (creds, out_refresh ++ out_flow)
      | Some _ => (creds, out_refresh)
      end
    else (creds, []) in
  (* lines 62-66 *)
  match creds with
  | Some c =>
      let '(fs', out3) := _save_credentials c fs in
      (Some c, fs', out1 ++ out2 ++ out3)
  | None => (None, fs, out1 ++ out2)
  end.

(** [_run_oauth_flow] shows in the output: it starts by printing one of
    these two messages. *)
Definition flow_invoked (out : list event) : Prop :=
  print Credentials_file_not_found ∈ out ∨ print Starting_OAuth2_flow ∈ out.

(** The three stages by which a credential is acquired all fail: no token
    file, or one that does not load, or one whose expired credential the
    refresh request does not renew; and then no credential from the consent
    flow. *)
Definition every_stage_fails `{GoogleAuth} (fs : files) : Prop :=
  (token_file fs = None
   ∨ (∃ content e, token_file fs = Some content
                   ∧ from_authorized_user_file content = Raised e)
   ∨ (∃ content c e, token_file fs = Some content
                     ∧ from_authorized_user_file content = Returned c
                     ∧ valid c = false ∧ expired c = true
                     ∧ truthy (refresh_token c) = true
                     ∧ refresh c = Raised e))
  ∧ (_run_oauth_flow fs).1 = None.

End oauth_helper.

(** ** DB_agent/agent.py, lines 86-89: the tools registered with the agent

    The hosted model answers a query with tool calls of its choosing; a
    call names one of the four registered accessors and its arguments. *)
Module registered_tools.
Import customers tools.

Inductive tool_call : Type :=
| call_create_customer (now : Z) (email full_name bio : string)
| call_get_customer_by_email (email : string)
| call_update_customer_by_email (email full_name bio : string)
| call_delete_customer_by_email (email : string).

Definition run_tool (c : tool_call) (t : Table) : outcome APIError APIResponse * Table :=
  match c with
  | call_create_customer now e n b => create_customer now e n b t
  | call_get_customer_by_email e => get_customer_by_email e t
  | call_update_customer_by_email e n b => update_customer_by_email e n b t
  | call_delete_customer_by_email e => delete_customer_by_email e t
  end.

(** The calls of a conversation, one after the other on the same store. *)
Fixpoint run_tools (cs : list tool_call) (t : Table)
  : list (outcome APIError APIResponse) * Table :=
  match cs with
  | [] => ([], t)
  | c :: cs' =>
      let '(result, t') := run_tool c t in
      let '(results, t'') := run_tools cs' t' in
      (result :: results, t'')
  end.

End registered_tools.

(** ** DB_agent/agent.py: start-up and [main] (lines 19-114) *)
Module agent_main.

(** The constructors of the model and of the store client: what they
    raise, if they do. *)
Class Clients : Type := {
  OpenAIModel : string → outcome string unit;
  create_client : string → string → outcome string unit
}.

Inductive error : Type :=
| ValueError (msg : string)
| Exception (e : string).

Definition error_message (e : error) : string :=
  match e with ValueError msg => msg | Exception msg => msg end.

Inductive message : Type :=
| Error_initializing_OpenAI_model (e : string)
| DB_Agent_Natural_Language_Database_Interface
| Type_quit_or_exit_to_stop_the_agent
| Connected_to_Supabase_successfully
| Failed_to_connect_to_Supabase (e : string)
| Database_seeded_successfully
| Database_seeding_failed (e : string).

Inductive event : Type :=
| print (m : message)
| construct_model (model_name : string)     (* OpenAIModel(model_name) *)
| construct_client (url key : string)       (* create_client(url, key) *)
| database_output (m : database.message)    (* printed by seed_database *)
| loop_event (e : agent.event).

(** A variable is unusable ([not os.getenv(key)]) when it is not set or set
    to the empty string. *)
Definition unset_or_empty (environ : gmap string string) (key : string) : Prop :=
  environ !! key = None ∨ environ !! key = Some "".

(** Lines 22-49.  The result, [os.environ] after the call, and the output. *)
Definition get_openai_model `{Clients} (model_name : string)
    (environ : gmap string string)
  : outcome error unit * gmap string string * list event :=
  match environ !! "OPENAI_API_KEY" with
  | None | Some EmptyString =>
      (Raised (ValueError
         "OpenAI API key not found. Please set the OPENAI_API_KEY environment variable."),
       environ, [])
  | Some openai_api_key =>
      let environ' := <["OPENAI_API_KEY" := openai_api_key]> environ in
      match OpenAIModel model_name with
      | Returned model => (Returned model, environ', [construct_model model_name])
      | Raised e =>
          (Raised (Exception e), environ',
           [construct_model model_name; print (Error_initializing_OpenAI_model e)])
      end
  end.

(** Lines 52-62. *)
Definition get_supabase_client `{Clients} (environ : gmap string string)
  : outcome error unit * list event :=
  match environ !! "SUPABASE_URL", environ !! "SUPABASE_KEY" with
  | Some (String c1 url'), Some (String c2 key') =>
      let supabase_url := String c1 url' in
      let supabase_key := String c2 key' in
      match create_client supabase_url supabase_key with
      | Returned client => (Returned client, [construct_client supabase_url supabase_key])
      | Raised e => (Raised (Exception e), [construct_client supabase_url supabase_key])
      end
  | _, _ =>
      (Raised (ValueError "Supabase URL and key must be set in environment variables"), [])
  end.

(** Lines 92-143: [main], on the environment as the import of the module
    left it, the clock of the database and its customers table ([None]:
    no such table), the successive results of [input()] and the successive
    outcomes of [agent.run_sync].  The table returned is the one seeding
    leaves. *)
Definition main `{Clients} `{database.Postgres} (dotenv environ : gmap string string)
    (now : Z) (t : option customers.Table) (stdin : list agent.stdin_item)
    (answers : list (outcome agent.run_error string))
  : list event * option customers.Table * agent.status :=
  let start := [print DB_Agent_Natural_Language_Database_Interface;
                print Type_quit_or_exit_to_stop_the_agent] in
  match get_supabase_client environ with
  | (Raised e, out) =>
      (start ++ out ++ [print (Failed_to_connect_to_Supabase (error_message e))],
       t, agent.returned)
  | (Returned supabase_client, out) =>
      let '(_, t', seed_out) := database.seed_database dotenv environ now t in
      let '(loop_out, st) := agent.loop stdin answers in
      (start ++ out ++ [print Connected_to_Supabase_successfully]
         ++ (database_output <$> seed_out) ++ [print Database_seeded_successfully]
         ++ (loop_event <$> loop_out),
       t', st)
  end.

(** Running agent.py as a script: the import of the module (lines 16-89:
    [load_dotenv()], then [model = get_openai_model()]) and then [main()].
    An exception at import ends the process. *)
Definition script `{Clients} `{database.Postgres} (dotenv environ : gmap string string)
    (now : Z) (t : option customers.Table) (stdin : list agent.stdin_item)
    (answers : list (outcome agent.run_error string))
  : outcome error agent.status * list event * option customers.Table :=
  let environ := database.load_dotenv dotenv environ in
  match get_openai_model "gpt-4o-mini" environ with
  | (Raised e, _, out) => (Raised e, out, t)
  | (Returned _, environ', out) =>
      let '(main_out, t', st) := main dotenv environ' now t stdin answers in
      (Returned st, out ++ main_out, t')
  end.

End agent_main.

(** Sample surroundings of [main]. *)
Module agent_samples.

(** Both constructors succeed. *)
Definition constructing : agent_main.Clients :=
  {| agent_main.OpenAIModel _ := Returned ();
     agent_main.create_client _ _ := Returned () |}.

(** No database server is listening. *)
Definition unreachable : database.Postgres :=
  {| database.refuses _ := Some "connection refused" |}.

(** The settings of a local Supabase. *)
Definition supabase_environ : gmap string string :=
  {[ "SUPABASE_URL" := "http://127.0.0.1:54321"; "SUPABASE_KEY" := "anon-key" ]}.

End agent_samples.

(** ** src/codescribe/oauth_helper.py: [setup_environment],
    [clear_credentials] and [main] (lines 100-129) *)
Module oauth_environment.
Import oauth_helper.

Inductive message : Type :=
| Environment_configured_for_Google_Cloud_authentication
| Cleared_stored_credentials
| No_stored_credentials_to_clear
| Testing_OAuth2_setup
| OAuth2_setup_successful
| You_can_now_use_Vertex_AI_with_LangExtract
| OAuth2_setup_failed
| Make_sure_you_have_downloaded_credentials_json.

Inductive event : Type :=
| helper (e : oauth_helper.event)    (* what get_credentials does *)
| print (m : message).

(** Lines 100-109; [token_file_path] is [str(self.token_file)].  The
    result, the files and [os.environ] after the call, and the output. *)
Definition setup_environment `{GoogleAuth} (token_file_path : string) (fs : files)
    (environ : gmap string string)
  : bool * files * gmap string string * list event :=
  let '(creds, fs', out) := get_credentials fs in
  match creds with
  | None => (false, fs', environ, helper <$> out)
  | Some _ =>
      (true, fs', <["GOOGLE_APPLICATION_CREDENTIALS" := token_file_path]> environ,
       (helper <$> out) ++ [print Environment_configured_for_Google_Cloud_authentication])
  end.


(** Lines 119-129: [OAuthHelper()] has project root ".", so that
    [str(self.token_file)] is "token.json". *)
Definition main `{GoogleAuth} (fs : files) (environ : gmap string string)
  : files * gmap string string * list event :=
  let '(ok, fs', environ', out) := setup_environment "token.json" fs environ in
  (fs', environ',
   [print Testing_OAuth2_setup] ++ out
   ++ (if ok then [print OAuth2_setup_successful;
                   print You_can_now_use_Vertex_AI_with_LangExtract]
       else [print OAuth2_setup_failed;
             print Make_sure_you_have_downloaded_credentials_json])).

End oauth_environment.

(** ** src/codescribe/config.py *)
Module config.

Record Config : Type := mkConfig {
  PROJECT_NAME : string;
  DEBUG : bool;
  LOG_LEVEL : string;
  GOOGLE_API_KEY : option string
}.

(** [os.getenv(key, default).lower() == "true"]. *)
Definition getenv_flag (environ : gmap string string) (key dflt : string) : bool :=
  bool_decide (agent.lower (default dflt (environ !! key)) = "true").

(** The sixteen spellings of "true" in upper and lower case. *)
Definition true_spellings : list string :=
  ["true"; "truE"; "trUe"; "trUE";
   "tRue"; "tRuE"; "tRUe"; "tRUE";
   "True"; "TruE"; "TrUe"; "TrUE";
   "TRue"; "TRuE"; "TRUe"; "TRUE"].

(** Lines 16-24: [Config()]. *)
Definition __init__ (environ : gmap string string) : Config :=
  {| PROJECT_NAME := default "codescribe" (environ !! "PROJECT_NAME");
     DEBUG := getenv_flag environ "DEBUG" "False";
     LOG_LEVEL := default "INFO" (environ !! "LOG_LEVEL");
     GOOGLE_API_KEY := environ !! "GOOGLE_API_KEY" |}.

(** Lines 26-32: the ValueError raised, if any. *)
Definition validate (self : Config) : outcome string unit :=
  match GOOGLE_API_KEY self with
  | None | Some EmptyString =>
      Raised "GOOGLE_API_KEY environment variable is required. Please set it in your .env file."
  | Some _ => Returned ()
  end.

(** Lines 10 and 36: the instance made when the module is imported, after
    [load_dotenv()]. *)
Definition config (dotenv environ : gmap string string) : Config :=
  __init__ (database.load_dotenv dotenv environ).

End config.

(** ** src/codescribe/langextract_demo.py *)
Module langextract_demo.

(** Truth value of a [str] or None. *)
Definition truthy (s : option string) : bool :=
  match s with
  | None | Some EmptyString => false
  | Some _ => true
  end.

(** [str(b)] of a [bool]. *)
Definition str_bool (b : bool) : string := if b then "True" else "False".

Inductive message : Type :=
| Configured_for_AI_Studio_with_API_key
| Using_Generative_Language_API_endpoint
| Removed_conflicting_environment_variable (var : string)
| Set_LANGEXTRACT_API_KEY_for_LangExtract
| Configured_for_Vertex_AI_with_OAuth_credentials
| Project (project_id : string)
| Location (location : string)
| Credentials (credentials_path : string)
| Using_OAuth_no_API_keys_required.

(** Lines 25-37: the ValueError raised if any, [os.environ] after the
    call, and the output.  [cfg] is the instance [config.config]. *)
Definition setup_api_key (cfg : config.Config) (environ : gmap string string)
  : outcome string unit * gmap string string * list message :=
  match config.GOOGLE_API_KEY cfg with
  | None | Some EmptyString =>
      (Raised "GOOGLE_API_KEY not found in environment variables", environ, [])
  | Some key =>
      (Returned (),
       delete "GOOGLE_GENAI_USE_VERTEXAI" (<["LANGEXTRACT_API_KEY" := key]> environ),
       [Configured_for_AI_Studio_with_API_key; Using_Generative_Language_API_endpoint])
  end.

(** Lines 53-57: one turn of the loop over [conflicting_vars]. *)
Definition remove_conflicting (var : string)
    (st : gmap string string * list message) : gmap string string * list message :=
  match st.1 !! var with
  | Some _ => (delete var st.1, st.2 ++ [Removed_conflicting_environment_variable var])
  | None => st
  end.

(** Lines 40-78. *)
Definition setup_oauth_credentials (environ : gmap string string)
  : outcome string unit * gmap string string * list message :=
  let use_vertexai := config.getenv_flag environ "GOOGLE_GENAI_USE_VERTEXAI" "False" in
  let project_id := environ !! "GOOGLE_CLOUD_PROJECT" in
  let location := environ !! "GOOGLE_CLOUD_LOCATION" in
  let credentials_path := environ !! "GOOGLE_APPLICATION_CREDENTIALS" in
  let genai_project_id := environ !! "GOOGLE_GENAI_PROJECT_ID" in
  match project_id, location, credentials_path with
  | Some (String p1 p'), Some (String l1 l'), Some (String c1 c') =>
      let project_id := String p1 p' in
      let location := String l1 l' in
      let credentials_path := String c1 c' in
      (* lines 53-57 *)
      let '(environ, out) :=
        foldl (λ st var, remove_conflicting var st) (environ, [])
              ["GOOGLE_API_KEY"; "GOOGLE_GENAI_API_KEY"] in
      (* lines 60-63 *)
      let '(environ, out) :=
        match environ !! "LANGEXTRACT_API_KEY" with
        | Some (String k1 k') =>
            (<["LANGEXTRACT_API_KEY" := String k1 k']> environ,
             out ++ [Set_LANGEXTRACT_API_KEY_for_LangExtract])
        | _ => (environ, out)
        end in
      (* lines 66-69 *)
      let environ := <["GOOGLE_GENAI_USE_VERTEXAI" := str_bool use_vertexai]> environ in
      let environ := <["GOOGLE_CLOUD_PROJECT" := project_id]> environ in
      let environ := <["GOOGLE_CLOUD_LOCATION" := location]> environ in
      let environ := <["GOOGLE_APPLICATION_CREDENTIALS" := credentials_path]> environ in
      (* lines 71-72 *)
      let environ :=
        match genai_project_id with
        | Some (String g1 g') => <["GOOGLE_GENAI_PROJECT_ID" := String g1 g']> environ
        | _ => environ
        end in
      (Returned (), environ,
       out ++ [Configured_for_Vertex_AI_with_OAuth_credentials; Project project_id;
               Location location; Credentials credentials_path;
               Using_OAuth_no_API_keys_required])
  | _, _, _ => (Raised "Missing required ADC configuration in .env file", environ, [])
  end.

(** Lines 192-199 of [main]: the choice between the two set-ups. *)
Definition configure (cfg : config.Config) (environ : gmap string string)
  : outcome string unit * gmap string string * list message :=
  if config.getenv_flag environ "GOOGLE_GENAI_USE_VERTEXAI" "False"
  then setup_oauth_credentials environ
  else setup_api_key cfg environ.

End langextract_demo.

(** ** src/codescribe/langextract_demo.py: [display_results]
    (lines 157-182) *)
Module langextract_results.

(** An extraction as [display_results] looks at it. *)
Record Extraction : Type := mkExtraction {
  extraction_class : string;
  extraction_text : string;
  (* None: no such attribute, or None *)
  attributes : option (list (string * string));
  (* None: no such attribute; Some None: the attribute is None *)
  char_interval : option (option (nat * nat))
}.

#[export] Instance Extraction_eq_dec : EqDecision Extraction.
Proof. solve_decision. Defined.

(** The attribute [extractions] of a result. *)
Inductive extractions_attribute : Type :=
| no_attribute
| is_None
| is_list (xs : list Extraction).

Inductive line : Type :=
| No_results_to_display
| Found (class_name : string) (n : nat)    (* "<Class Name>s Found: n" *)
| rule_40
| item (i : nat) (text : string)           (* "i. text" *)
| Attributes (a : list (string * string))
| Position (interval : option (nat * nat))
| rule_20.

(** Lines 166-169: [grouped_results[class_name].append(extraction)], the
    key being added at the end of the dict when it is new. *)
Fixpoint append_to (class_name : string) (x : Extraction)
    (grouped_results : list (string * list Extraction))
  : list (string * list Extraction) :=
  match grouped_results with
  | [] => [(class_name, [x])]
  | (k, xs) :: rest =>
      if decide (class_name = k) then (k, xs ++ [x]) :: rest
      else (k, xs) :: append_to class_name x rest
  end.

(** Lines 164-169. *)
Definition group (xs : list Extraction) : list (string * list Extraction) :=
  foldl (λ grouped_results x, append_to (extraction_class x) x grouped_results) [] xs.

(** Lines 176-182, from number [i] on. *)
Fixpoint display_extractions (i : nat) (xs : list Extraction) : list line :=
  match xs with
  | [] => []
  | x :: xs' =>
      [item i (extraction_text x)]
      ++ match attributes x with
         | Some (a :: attrs) => [Attributes (a :: attrs)]
         | _ => []
         end
      ++ match char_interval x with
         | Some interval => [Position interval]
         | None => []
         end
      ++ [rule_20] ++ display_extractions (S i) xs'
  end.

(** Lines 172-182. *)
Definition display_group (g : string * list Extraction) : list line :=
  [Found g.1 (length g.2); rule_40] ++ display_extractions 1 g.2.

(** Lines 157-182, on a result that is None ([None]) or an object. *)
Definition display_results (result : option extractions_attribute)
  : outcome string unit * list line :=
  match result with
  | None | Some no_attribute => (Returned (), [No_results_to_display])
  | Some is_None => (Raised "'NoneType' object is not iterable", [])
  | Some (is_list xs) => (Returned (), mbind display_group (group xs))
  end.

(** The texts of the numbered lines of an output. *)
Definition item_texts (out : list line) : list string :=
  omap (λ l, match l with item _ text => Some text | _ => None end) out.

(** The counts announced in an output. *)
Definition found_counts (out : list line) : list nat :=
  omap (λ l, match l with Found _ n => Some n | _ => None end) out.

(** What the grouping has made of the extractions seen so far: one entry
    per class seen, holding the extractions of that class in order. *)
Definition grouped (xs : list Extraction) (g : list (string * list Extraction)) : Prop :=
  NoDup g.*1
  ∧ (∀ c ys, (c, ys) ∈ g →
       ys ≠ [] ∧ ys = filter (λ x, extraction_class x = c) xs)
  ∧ (∀ x, x ∈ xs → extraction_class x ∈ g.*1)
  ∧ concat g.*2 ≡ₚ xs.

End langextract_results.

(** ** DB_agent/setup.py *)
Module setup.

(** What [subprocess.run(..., capture_output=True, text=True)] returns. *)
Record CompletedProcess : Type := mkCompletedProcess {
  returncode : Z;
  stdout : string;
  stderr : string
}.

(** The machine the script runs on: a command run through the shell
    returns or raises and may change the machine; [os.path.exists] looks at
    it. *)
Class OS : Type := {
  world : Type;
  subprocess_run : string → world → outcome string CompletedProcess * world;
  os_path_exists : string → world → bool
}.

Inductive message : Type :=
| Step (description : string)                 (* "<description>..." *)
| Failed (stderr : string)
| Success
| Output (stdout : string)
| Error (e : string)
| Checking_prerequisites
| Missing_prerequisites (names : list string)
| Please_install_the_missing_tools
| All_prerequisites_are_installed
| Setting_up_project_environment
| env_file_not_found
| Copy_env_example_to_env
| Add_your_OpenAI_API_key
| Add_your_Supabase_URL_and_key
| Setting_up_Supabase
| Next_steps_for_Supabase
| Run_npx_supabase_start
| Copy_the_API_URL_and_anon_key
| Open_Supabase_Studio_and_create_the_customers_table
| Add_columns
| Disable_Row_Level_Security
| DB_Agent_Setup_Script
| rule_40
| Setup_completed_successfully
| Next_steps
| Complete_the_Supabase_setup
| Run_uv_run_python_agent_py
| Or_test_with_uv_run_python_test_agent_py.

Inductive event : Type :=
| print (m : message)
| run (command : string).     (* subprocess.run(command, shell=True, ...) *)

(** Lines 15-30. *)
Definition run_command `{OS} (command description : string) (check_success : bool)
    (w : world) : bool * world * list event :=
  match subprocess_run command w with
  | (Returned result, w') =>
      if check_success && negb (bool_decide (returncode result = 0)) then
        (false, w', [print (Step description); run command; print (Failed (stderr result))])
      else
        (true, w',
         [print (Step description); run command; print Success]
         ++ (if decide (agent.strip (stdout result) = "") then []
             else [print (Output (agent.strip (stdout result)))]))
  | (Raised e, w') =>
      (false, w', [print (Step description); run command; print (Error e)])
  end.

(** Lines 37-43. *)
Definition prerequisites : list (string * string) :=
  [ ("python3", "Python 3.13+"); ("uv", "UV package manager"); ("docker", "Docker");
    ("node", "Node.js"); ("npm", "npm") ].

(** Lines 46-48: one turn of the loop; the state is the machine, the list
    [missing] and the output so far. *)
Definition check_one `{OS} (st : world * list string * list event)
    (prerequisite : string * string) : world * list string * list event :=
  let '(w, missing, out) := st in
  let '(cmd, name) := prerequisite in
  let '(ok, w', out') := run_command ("which " ++ cmd) ("Checking " ++ name) false w in
  (w', if ok then missing else missing ++ [name], out ++ out').

(** Lines 33-56. *)
Definition check_prerequisites `{OS} (w : world) : bool * world * list event :=
  let '(w', missing, out) :=
    foldl check_one (w, [], [print Checking_prerequisites]) prerequisites in
  match missing with
  | [] => (true, w', out ++ [print All_prerequisites_are_installed])
  | _ :: _ =>
      (false, w',
       out ++ [print (Missing_prerequisites missing); print Please_install_the_missing_tools])
  end.

(** Lines 59-75. *)
Definition setup_environment `{OS} (w : world) : bool * world * list event :=
  let '(ok, w', out) := run_command "uv sync" "Installing Python dependencies" true w in
  if negb ok then (false, w', print Setting_up_project_environment :: out)
  else if negb (os_path_exists ".env" w') then
    (false, w',
     print Setting_up_project_environment :: out
     ++ [print env_file_not_found; print Copy_env_example_to_env;
         print Add_your_OpenAI_API_key; print Add_your_Supabase_URL_and_key])
  else (true, w', print Setting_up_project_environment :: out).

(** Lines 91-96. *)
Definition supabase_next_steps : list event :=
  [print Next_steps_for_Supabase; print Run_npx_supabase_start;
   print Copy_the_API_URL_and_anon_key;
   print Open_Supabase_Studio_and_create_the_customers_table;
   print Add_columns; print Disable_Row_Level_Security].

(** Lines 78-98. *)
Definition setup_supabase `{OS} (w : world) : bool * world * list event :=
  let '(ok, w1, out1) :=
    run_command "npm install supabase --save-dev" "Installing Supabase CLI" true w in
  if negb ok then (false, w1, print Setting_up_Supabase :: out1)
  else if negb (os_path_exists "supabase" w1) then
    let '(ok, w2, out2) :=
      run_command "npx supabase init" "Initializing Supabase project" true w1 in
    if negb ok then (false, w2, print Setting_up_Supabase :: out1 ++ out2)
    else (true, w2, print Setting_up_Supabase :: out1 ++ out2 ++ supabase_next_steps)
  else (true, w1, print Setting_up_Supabase :: out1 ++ supabase_next_steps).

(** Lines 101-119: the exit status of the script ([sys.exit(1)], or 0 when
    [main] returns), the machine and the output. *)
Definition main `{OS} (w : world) : Z * world * list event :=
  let start := [print DB_Agent_Setup_Script; print rule_40] in
  let '(ok, w1, out1) := check_prerequisites w in
  if negb ok then (1, w1, start ++ out1)
  else
    let '(ok, w2, out2) := setup_environment w1 in
    if negb ok then (1, w2, start ++ out1 ++ out2)
    else
      let '(ok, w3, out3) := setup_supabase w2 in
      if negb ok then (1, w3, start ++ out1 ++ out2 ++ out3)
      else
        (0, w3,
         start ++ out1 ++ out2 ++ out3
         ++ [print Setup_completed_successfully; print Next_steps;
             print Complete_the_Supabase_setup; print Run_uv_run_python_agent_py;
             print Or_test_with_uv_run_python_test_agent_py]).

(** The commands run in an output, in order. *)
Definition commands (out : list event) : list string :=
  omap (λ e, match e with run command => Some command | print _ => None end) out.

(** The commands of the script, in the order of the source. *)
Definition all_commands : list string :=
  [ "which python3"; "which uv"; "which docker"; "which node"; "which npm";
    "uv sync"; "npm install supabase --save-dev"; "npx supabase init" ].

End setup.

(** A machine with none of the tools: every command ends with status 1,
    and no file exists. *)
Module setup_samples.

Definition bare : setup.OS :=
  {| setup.world := unit;
     setup.subprocess_run _ w :=
       (Returned (setup.mkCompletedProcess 1 "" "command not found"), w);
     setup.os_path_exists _ _ := false |}.

End setup_samples.

(** ** Sample states *)
Module samples.
Import customers.

(** A table with two customers, as two calls of [create_customer] on an
    empty table leave it. *)
Definition two_customers : Table :=
  mkTable [mkRow (Some 1) (Some "a@x.com") (Some "A") (Some "bio1") (Some 1700000000);
           mkRow (Some 2) (Some "b@x.com") (Some "B") (Some "bio") (Some 1700000060)] 3.

(** An empty table whose id sequence has handed out its last value. *)
Definition exhausted : Table := mkTable [] 2147483648.

(** A table whose one customer got the last id of the sequence. *)
Definition last_customer : Table :=
  mkTable [mkRow (Some 2147483647) (Some "a@x.com") (Some "A") (Some "bio1")
             (Some 1700000000)] 2147483648.

(** An empty table whose id sequence has two values left. *)
Definition nearly_exhausted : Table := mkTable [] 2147483646.

(** An environment that names a remote server and another user. *)
Definition remote_environ : gmap string string :=
  {[ "POSTGRES_HOST" := "db.example.com"; "POSTGRES_USER" := "alice";
     "POSTGRES_PORT" := "6543"; "POSTGRES_PASSWORD" := "s3cret" ]}.

End samples.

Module oauth_samples.
Import oauth_helper.

(** A library whose token files hold the access token itself, whose
    refresh and consent flow both fail. *)
Definition offline : GoogleAuth :=
  {| from_authorized_user_file content :=
       if decide (content = "") then Raised "Expecting value"
       else Returned (mkCredentials (Some content) (Some "1//refresh") false true);
     to_json c := default "" (token c);
     refresh _ := Raised "transport error";
     run_local_server _ := Raised "access_denied" |}.

(** A library whose consent flow succeeds and whose token files hold the
    access token. *)
Definition consenting : GoogleAuth :=
  {| from_authorized_user_file content :=
       if decide (content = "") then Raised "Expecting value"
       else Returned (mkCredentials (Some content) (Some "1//refresh") false true);
     to_json c := default "" (token c);
     refresh _ := Raised "transport error";
     run_local_server _ :=
       Returned (mkCredentials (Some "ya29.new") (Some "1//refresh") false true) |}.

(** A library whose token files hold the access token of a credential that
    has expired and can be refreshed. *)
Definition refreshing : GoogleAuth :=
  {| from_authorized_user_file content :=
       if decide (content = "") then Raised "Expecting value"
       else Returned (mkCredentials (Some content) (Some "1//refresh") true false);
     to_json c := default "" (token c);
     refresh c := Returned (mkCredentials (Some "ya29.renewed") (refresh_token c) false true);
     run_local_server _ := Raised "access_denied" |}.

(** A library whose token files hold a credential without access token
    and without refresh token. *)
Definition tokenless : GoogleAuth :=
  {| from_authorized_user_file _ := Returned (mkCredentials None None false false);
     to_json _ := "{}";
     refresh _ := Raised "transport error";
     run_local_server _ := Raised "access_denied" |}.

(** Client secrets but no token, in a directory that cannot be written. *)
Definition read_only_project : files :=
  mk_files (Some "{client secrets}") None (Some "Permission denied").

(** A saved token, no client secrets. *)
Definition saved_token : files := mk_files None (Some "ya29.token") None.


End oauth_samples.

(** * Properties *)

(** ** The table: filters on an absent email, and the invariant [wf] *)
Section customers_facts.
Import customers.
Implicit Types (t : Table) (r : Row) (l : list Row) (e : string).

Lemma filter_email_absent e l :
  Some e ∉ email <$> l → filter (email_is e) l = [].
Proof.
  induction l as [|r l IH]; [done|].
  rewrite fmap_cons, not_elem_of_cons. intros [Hne Hl].
  rewrite filter_cons. destruct (decide (email_is e r)) as [Hr|_]; [|auto].
  unfold email_is in Hr. congruence.
Qed.

Lemma filter_other_email_absent e l :
  Some e ∉ email <$> l → filter (λ r, ¬ email_is e r) l = l.
Proof.
  induction l as [|r l IH]; [done|].
  rewrite fmap_cons, not_elem_of_cons. intros [Hne Hl].
  rewrite filter_cons. destruct (decide (¬ email_is e r)) as [_|Hr].
  - f_equal. auto.
  - exfalso. apply Hr. unfold email_is. congruence.
Qed.

Lemma fmap_matching_absent e (f : Row → Row) l :
  Some e ∉ email <$> l →
  (λ r, if decide (email_is e r) then f r else r) <$> l = l.
Proof.
  induction l as [|r l IH]; [done|].
  rewrite !fmap_cons, not_elem_of_cons. intros [Hne Hl].
  destruct (decide (email_is e r)) as [Hr|_].
  - unfold email_is in Hr. congruence.
  - f_equal. auto.
Qed.

Lemma customers_id_seq_fresh t :
  wf t → Some (customers_id_seq t) ∉ id <$> rows t.
Proof.
  intros Hwf Hin. apply list_elem_of_fmap in Hin as (r & Hr & Hin).
  pose proof (wf_seq _ Hwf) as Hs. rewrite Forall_forall in Hs.
  specialize (Hs r Hin _ (eq_sym Hr)). lia.
Qed.

Lemma valid_triple_text_ok e n b :
  valid_triple e n b →
  negb (text_ok (Some e) && text_ok (Some n) && text_ok (Some b)) = false.
Proof. intros (He & Hn & Hb). simpl. by rewrite He, Hn, Hb. Qed.

(** An insert of three storable values with a fresh email is accepted, as
    long as the sequence has a value left. *)
Lemma insert_fresh now e n b t :
  wf t → valid_triple e n b → (customers_id_seq t ≤ int4_max)%Z →
  Some e ∉ email <$> rows t →
  insert now (Some e) (Some n) (Some b) t
  = (Returned (mkRow (Some (customers_id_seq t)) (Some e) (Some n) (Some b) (Some now)),
     mkTable (rows t ++ [mkRow (Some (customers_id_seq t)) (Some e) (Some n) (Some b) (Some now)])
             (customers_id_seq t + 1)).
Proof.
  intros Hwf Hvalid Hseq He. unfold insert. rewrite valid_triple_text_ok by done.
  destruct (decide (customers_id_seq t > int4_max)) as [?|_]; [lia|].
  unfold check_constraints, check_unique. simpl.
  destruct (decide _) as [Hid|_]; [by apply customers_id_seq_fresh in Hid|].
  by destruct (decide _).
Qed.

(** An insert with an email already stored is refused by the UNIQUE
    constraint and leaves the rows as they are. *)
Lemma insert_taken now e n b t :
  wf t → valid_triple e n b → (customers_id_seq t ≤ int4_max)%Z →
  Some e ∈ email <$> rows t →
  insert now (Some e) (Some n) (Some b) t
  = (Raised (unique_violation "customers_email_key"),
     mkTable (rows t) (customers_id_seq t + 1)).
Proof.
  intros Hwf Hvalid Hseq He. unfold insert. rewrite valid_triple_text_ok by done.
  destruct (decide (customers_id_seq t > int4_max)) as [?|_]; [lia|].
  unfold check_constraints, check_unique. simpl.
  destruct (decide _) as [Hid|_]; [by apply customers_id_seq_fresh in Hid|].
  by destruct (decide _).
Qed.

(** With no value left in the sequence nothing is inserted. *)
Lemma insert_exhausted now e n b t :
  valid_triple e n b → (customers_id_seq t > int4_max)%Z →
  insert now (Some e) (Some n) (Some b) t
  = (Raised (sequence_generator_limit_exceeded "customers_id_seq"), t).
Proof.
  intros Hvalid Hseq. unfold insert. rewrite valid_triple_text_ok by done.
  by destruct (decide (customers_id_seq t > int4_max)).
Qed.

(** An insert that raises leaves the rows as they are, and an insert never
    takes more than one value from the sequence. *)
Lemma insert_rows_seq now (c1 c2 c3 : option string) t :
  (customers_id_seq (insert now c1 c2 c3 t).2 = customers_id_seq t
   ∨ customers_id_seq (insert now c1 c2 c3 t).2 = customers_id_seq t + 1)
  ∧ (∀ err, (insert now c1 c2 c3 t).1 = Raised err →
            rows (insert now c1 c2 c3 t).2 = rows t).
Proof.
  unfold insert.
  destruct (negb _); [by split; [left|]|].
  destruct (decide _); [by split; [left|]|].
  destruct (check_constraints _ _); simpl; split; try (by right); done.
Qed.

Lemma wf_empty seq : wf (mkTable [] seq).
Proof. split; simpl; constructor. Qed.

Lemma insert_wf now (c1 c2 c3 : option string) t :
  wf t → wf (insert now c1 c2 c3 t).2.
Proof.
  intros Hwf. pose proof Hwf as [Hnn Hpk Hek Hseq]. unfold insert.
  destruct (negb _); [done|]. destruct (decide (customers_id_seq t > int4_max)); [done|].
  destruct (check_constraints _ _) as [err|] eqn:Hc; simpl.
  - split; simpl; try done.
    eapply Forall_impl; [exact Hseq|]. simpl. intros r Hr i Hi. specialize (Hr i Hi). lia.
  - unfold check_constraints in Hc.
    destruct (check_not_null _) eqn:Hn; [done|].
    unfold check_unique in Hc. simpl in Hc.
    destruct (decide _) as [|Hid]; [done|]. destruct (decide _) as [|Hem]; [done|].
    split; simpl.
    + apply Forall_app. split; [done|]. by constructor.
    + rewrite fmap_app. apply NoDup_app. split_and!; [done| |by apply NoDup_singleton].
      simpl. intros x Hx ->%list_elem_of_singleton. done.
    + rewrite fmap_app. apply NoDup_app. split_and!; [done| |by apply NoDup_singleton].
      simpl. intros x Hx ->%list_elem_of_singleton. done.
    + apply Forall_app. split.
      * eapply Forall_impl; [exact Hseq|]. simpl. intros r Hr i Hi. specialize (Hr i Hi). lia.
      * constructor; [|constructor]. simpl. intros i [= <-]. lia.
Qed.

Lemma fmap_matching_none e (f : Row → Row) l :
  filter (email_is e) l = [] →
  (λ r, if decide (email_is e r) then f r else r) <$> l = l.
Proof.
  induction l as [|r l IH]; [done|].
  rewrite filter_cons, fmap_cons.
  destruct (decide (email_is e r)); [done|]. intros Hl. f_equal. auto.
Qed.

(** The update writes neither the id nor the email column. *)
Lemma update_keeps_keys e n b l :
  id <$> ((λ r, if decide (email_is e r) then set_name_bio n b r else r) <$> l) = id <$> l
  ∧ email <$> ((λ r, if decide (email_is e r) then set_name_bio n b r else r) <$> l)
    = email <$> l.
Proof.
  rewrite <- !list_fmap_compose.
  split; apply list_fmap_ext; intros i r _; simpl; by destruct (decide _).
Qed.

Lemma update_wf e n b t :
  wf t → wf (update_eq_email e n b t).2.
Proof.
  intros Hwf. pose proof Hwf as [Hnn Hpk Hek Hseq]. unfold update_eq_email.
  destruct (update_keeps_keys e n b (rows t)) as [Hid Hem].
  assert (Hsome : ∀ n' b', n = Some n' → b = Some b' →
    wf (mkTable ((λ r, if decide (email_is e r) then set_name_bio n b r else r) <$> rows t)
                (customers_id_seq t))).
  { intros n' b' -> ->. split; simpl; [| by rewrite Hid | by rewrite Hem |].
    - apply Forall_fmap. eapply Forall_impl; [exact Hnn|]. simpl. intros r Hr.
      destruct (decide _); [|done]. unfold check_not_null in *. simpl.
      by destruct (id r), (email r).
    - apply Forall_fmap. eapply Forall_impl; [exact Hseq|]. simpl. intros r Hr.
      by destruct (decide _). }
  destruct (filter (email_is e) (rows t)) as [|r0 matched] eqn:Hf.
  - assert (wf (mkTable ((λ r, if decide (email_is e r) then set_name_bio n b r else r)
                           <$> rows t) (customers_id_seq t))) as Hno.
    { rewrite fmap_matching_none by done. by destruct t. }
    by destruct n, b.
  - destruct n as [n'|]; [|done]. destruct b as [b'|]; [|done]. simpl. eauto.
Qed.

Lemma delete_wf e t :
  wf t → wf (delete_eq_email e t).2.
Proof.
  intros [Hnn Hpk Hek Hseq]. unfold delete_eq_email. simpl.
  pose proof (sublist_filter (λ r, ¬ email_is e r) (rows t)) as Hsub.
  split; simpl.
  - eapply Forall_impl; [|intros r Hr; exact Hr].
    apply Forall_forall. intros r Hr%list_elem_of_filter.
    rewrite Forall_forall in Hnn. apply Hnn, Hr.
  - eapply sublist_NoDup; [exact Hpk|]. by apply fmap_sublist.
  - eapply sublist_NoDup; [exact Hek|]. by apply fmap_sublist.
  - apply Forall_forall. intros r Hr%list_elem_of_filter.
    rewrite Forall_forall in Hseq. apply Hseq, Hr.
Qed.

End customers_facts.

(** ** The four accessors *)
Section tools_facts.
Import customers tools.
Implicit Types (t : Table) (r : Row) (e n b : string).

(** Every accessor takes a well-formed table to a well-formed table. *)
Lemma create_customer_wf now e n b t : wf t → wf (create_customer now e n b t).2.
Proof.
  intros Hwf. unfold create_customer.
  pose proof (insert_wf now (Some e) (Some n) (Some b) t Hwf) as H.
  by destruct (insert _ _ _ _ _) as [[?|?] ?].
Qed.

Lemma update_customer_by_email_wf e n b t :
  wf t → wf (update_customer_by_email e n b t).2.
Proof.
  intros Hwf. unfold update_customer_by_email.
  pose proof (update_wf e (Some n) (Some b) t Hwf) as H.
  by destruct (update_eq_email _ _ _ _) as [[?|?] ?].
Qed.

Lemma delete_customer_by_email_wf e t :
  wf t → wf (delete_customer_by_email e t).2.
Proof. intros Hwf. by apply (delete_wf e) in Hwf. Qed.

(** The scenario of the specification, run on the model: insert
    ("a@x.com", "A", "bio1"), update to ("A2", "bio2"), read; then delete and
    read again. *)
Example crud_scenario :
  let t1 := (create_customer 1700000000 "a@x.com" "A" "bio1" (mkTable [] 1)).2 in
  let t2 := (update_customer_by_email "a@x.com" "A2" "bio2" t1).2 in
  let t3 := (delete_customer_by_email "a@x.com" t2).2 in
  (get_customer_by_email "a@x.com" t2).1
  = Returned (mkAPIResponse
                [mkRow (Some 1) (Some "a@x.com") (Some "A2") (Some "bio2") (Some 1700000000)]
                None)
  ∧ (get_customer_by_email "a@x.com" t3).1 = Returned (mkAPIResponse [] None)
  ∧ t3 = mkTable [] 2.
Proof. by vm_compute. Qed.

(** C1, as the store has it.  On a well-formed table that holds no row
    with the given email and whose id sequence has a value left, for every
    valid triple (no value holds NUL), [create_customer] followed by
    [get_customer_by_email] with the same email returns exactly one record;
    its full_name and bio are the given ones and its id and created_at are
    not NULL. *)
Theorem create_then_get_by_email now e n b t :
  wf t → valid_triple e n b → (customers_id_seq t ≤ int4_max)%Z →
  Some e ∉ email <$> rows t →
  ∃ r t1,
    create_customer now e n b t = (Returned (mkAPIResponse [r] None), t1)
    ∧ get_customer_by_email e t1 = (Returned (mkAPIResponse [r] None), t1)
    ∧ email r = Some e ∧ full_name r = Some n ∧ bio r = Some b
    ∧ is_Some (id r) ∧ is_Some (created_at r).
Proof.
  intros Hwf Hvalid Hseq He. unfold create_customer. rewrite insert_fresh by done.
  eexists _, _. split; [reflexivity|].
  unfold get_customer_by_email, select_eq_email. simpl.
  rewrite filter_app, filter_email_absent by done. simpl.
  rewrite filter_cons, filter_nil.
  destruct (decide (email_is e _)) as [_|Hne]; [|by destruct Hne].
  split_and!; eauto.
Qed.

Lemma create_then_get_by_email_witness :
  ∃ r t1,
    create_customer 1700000000 "a@x.com" "A" "bio1" (mkTable [] 1)
      = (Returned (mkAPIResponse [r] None), t1)
    ∧ get_customer_by_email "a@x.com" t1 = (Returned (mkAPIResponse [r] None), t1)
    ∧ email r = Some "a@x.com" ∧ full_name r = Some "A" ∧ bio r = Some "bio1"
    ∧ is_Some (id r) ∧ is_Some (created_at r).
Proof.
  apply (create_then_get_by_email 1700000000 "a@x.com" "A" "bio1" (mkTable [] 1)).
  - apply wf_empty.
  - by vm_compute.
  - by vm_compute.
  - simpl. apply not_elem_of_nil.
Defined.

(** C1, as stated, does not hold: on the empty, well-formed table whose id
    sequence has handed out its last value, the create of a valid triple
    with a new email raises, and the read that follows returns no record. *)
Lemma create_on_exhausted_sequence :
  wf samples.exhausted
  ∧ valid_triple "a@x.com" "A" "bio1"
  ∧ (Some "a@x.com" ∉ email <$> rows samples.exhausted)
  ∧ create_customer 1700000000 "a@x.com" "A" "bio1" samples.exhausted
    = (Raised (mkAPIError (sequence_generator_limit_exceeded "customers_id_seq")),
       samples.exhausted)
  ∧ get_customer_by_email "a@x.com" samples.exhausted
    = (Returned (mkAPIResponse [] None), samples.exhausted).
Proof.
  split_and!; [apply wf_empty|by vm_compute|apply not_elem_of_nil|by vm_compute..].
Qed.

(** C2, as the store has it.  On a well-formed table that holds a row with
    the given email, [create_customer] with that email always raises an
    error of the store client and leaves the rows of the table, the one
    with that email among them, as they were.  The error is the violation
    of the UNIQUE constraint on email whenever the values hold no NUL and
    the id sequence has a value left. *)
Theorem create_existing_email_conflict now e n b t :
  wf t → Some e ∈ email <$> rows t →
  ∃ err t1,
    create_customer now e n b t = (Raised (mkAPIError err), t1)
    ∧ rows t1 = rows t
    ∧ select_eq_email e t1 = select_eq_email e t
    ∧ (valid_triple e n b → (customers_id_seq t ≤ int4_max)%Z →
       err = unique_violation "customers_email_key").
Proof.
  intros Hwf He. unfold create_customer, insert.
  destruct (negb _) eqn:Hvalid.
  { eexists _, _. split_and!; try reflexivity.
    intros Hv. by rewrite valid_triple_text_ok in Hvalid. }
  destruct (decide (customers_id_seq t > int4_max)) as [Hmax|_].
  { eexists _, _. split_and!; try reflexivity. intros _ ?. lia. }
  unfold check_constraints, check_unique. simpl.
  destruct (decide _) as [Hid|_]; [by apply customers_id_seq_fresh in Hid|].
  destruct (decide _) as [_|Hne]; [|done].
  eexists _, _. split_and!; reflexivity.
Qed.

Lemma two_customers_wf : wf samples.two_customers.
Proof.
  split; simpl.
  - by repeat constructor.
  - by apply (bool_decide_unpack _).
  - by apply (bool_decide_unpack _).
  - repeat constructor; simpl; intros i [= <-]; lia.
Qed.

Lemma last_customer_wf : wf samples.last_customer.
Proof.
  split; simpl.
  - by repeat constructor.
  - by apply (bool_decide_unpack _).
  - by apply (bool_decide_unpack _).
  - repeat constructor; simpl; intros i [= <-]; lia.
Qed.

Lemma create_existing_email_conflict_witness :
  ∃ err t1,
    create_customer 1700000120 "a@x.com" "A again" "bio3" samples.two_customers
      = (Raised (mkAPIError err), t1)
    ∧ rows t1 = rows samples.two_customers
    ∧ select_eq_email "a@x.com" t1 = select_eq_email "a@x.com" samples.two_customers
    ∧ (valid_triple "a@x.com" "A again" "bio3" →
       (customers_id_seq samples.two_customers ≤ int4_max)%Z →
       err = unique_violation "customers_email_key").
Proof.
  apply (create_existing_email_conflict 1700000120 "a@x.com" "A again" "bio3"
           samples.two_customers).
  - apply two_customers_wf.
  - by apply (bool_decide_unpack _).
Defined.

(** C2, as stated, does not hold: on the well-formed table whose one
    customer got the last id of the sequence, a create with that
    customer's email raises the error of the exhausted sequence, not a
    uniqueness violation. *)
Lemma create_existing_email_on_exhausted_sequence :
  wf samples.last_customer
  ∧ Some "a@x.com" ∈ email <$> rows samples.last_customer
  ∧ create_customer 1700000120 "a@x.com" "A again" "bio3" samples.last_customer
    = (Raised (mkAPIError (sequence_generator_limit_exceeded "customers_id_seq")),
       samples.last_customer)
  ∧ sequence_generator_limit_exceeded "customers_id_seq"
    ≠ unique_violation "customers_email_key".
Proof.
  split_and!; [apply last_customer_wf|by apply (bool_decide_unpack _)|by vm_compute|done].
Qed.

(** C3. With an email no row has, [update_customer_by_email] returns (it
    does not raise), the response holds no row, and the table is the one
    from before the call. *)
Theorem update_absent_email_noop e n b t :
  Some e ∉ email <$> rows t →
  update_customer_by_email e n b t = (Returned (mkAPIResponse [] None), t).
Proof.
  intros He. unfold update_customer_by_email, update_eq_email.
  rewrite filter_email_absent by done. simpl.
  rewrite fmap_matching_absent by done. by destruct t.
Qed.

Lemma update_absent_email_noop_witness :
  update_customer_by_email "nobody@x.com" "N" "bio" samples.two_customers
  = (Returned (mkAPIResponse [] None), samples.two_customers).
Proof.
  apply (update_absent_email_noop "nobody@x.com" "N" "bio" samples.two_customers).
  by apply (bool_decide_unpack _).
Defined.

(** C4. With an email no row has, [delete_customer_by_email] returns (it
    does not raise) and the table is the one from before the call. *)
Theorem delete_absent_email_noop e t :
  Some e ∉ email <$> rows t →
  delete_customer_by_email e t = (Returned (mkAPIResponse [] None), t).
Proof.
  intros He. unfold delete_customer_by_email, delete_eq_email.
  rewrite filter_email_absent, filter_other_email_absent by done. by destruct t.
Qed.

Lemma delete_absent_email_noop_witness :
  delete_customer_by_email "nobody@x.com" samples.two_customers
  = (Returned (mkAPIResponse [] None), samples.two_customers).
Proof.
  apply (delete_absent_email_noop "nobody@x.com" samples.two_customers).
  by apply (bool_decide_unpack _).
Defined.



End tools_facts.

(** ** database.py: the connection and seeding *)
Section database_facts.
Import customers database.
Context `{Postgres}.
Implicit Types (t : Table) (dotenv environ : gmap string string).

Lemma insert_fresh_wf now (e n b : string) t :
  wf t → valid_triple e n b → (customers_id_seq t ≤ int4_max)%Z →
  Some e ∉ email <$> rows t →
  wf (mkTable (rows t ++ [mkRow (Some (customers_id_seq t)) (Some e) (Some n) (Some b) (Some now)])
              (customers_id_seq t + 1)).
Proof.
  intros Hwf Hvalid Hseq He.
  pose proof (insert_wf now (Some e) (Some n) (Some b) t Hwf) as Hw.
  by rewrite insert_fresh in Hw.
Qed.

(** On an empty table the three sample inserts are all accepted when the
    sequence has three values left. *)
Lemma executemany_sample_customers now seq :
  (seq + 2 ≤ int4_max)%Z →
  executemany now sample_customers (mkTable [] seq)
  = (Returned (),
     mkTable
       [ mkRow (Some seq) (Some "johndoe@gmail.com") (Some "John Doe")
               (Some "I am a software engineer") (Some now);
         mkRow (Some (seq + 1)) (Some "janedoe@gmail.com") (Some "Jane Doe")
               (Some "I am a data scientist") (Some now);
         mkRow (Some (seq + 1 + 1)) (Some "jimdoe@gmail.com") (Some "Jim Doe")
               (Some "I am a product manager") (Some now) ]
       (seq + 1 + 1 + 1)).
Proof.
  intros Hseq. unfold sample_customers. cbn [executemany].
  pose proof (wf_empty seq) as Hwf0.
  assert (Hwf1 := insert_fresh_wf now "johndoe@gmail.com" "John Doe"
                    "I am a software engineer" _ Hwf0 ltac:(by vm_compute)
                    ltac:(simpl; lia) ltac:(by apply (bool_decide_unpack _))).
  rewrite insert_fresh; [|done|by vm_compute|simpl; lia|by apply (bool_decide_unpack _)].
  cbn [rows customers_id_seq app] in *.
  assert (Hwf2 := insert_fresh_wf now "janedoe@gmail.com" "Jane Doe"
                    "I am a data scientist" _ Hwf1 ltac:(by vm_compute)
                    ltac:(simpl; lia) ltac:(by apply (bool_decide_unpack _))).
  rewrite insert_fresh;
    [|exact Hwf1|by vm_compute|simpl; lia|by apply (bool_decide_unpack _)].
  cbn [rows customers_id_seq app] in *.
  rewrite insert_fresh;
    [|exact Hwf2|by vm_compute|simpl; lia|by apply (bool_decide_unpack _)].
  reflexivity.
Qed.

Lemma executemany_wf now params t :
  wf t →
  wf (executemany now params t).2
  ∧ (customers_id_seq t ≤ customers_id_seq (executemany now params t).2)%Z.
Proof.
  revert t. induction params as [|[[e n] b] params IH]; intros t Hwf; simpl; [done|].
  pose proof (insert_wf now (Some e) (Some n) (Some b) t Hwf) as Hwf'.
  destruct (insert_rows_seq now (Some e) (Some n) (Some b) t) as [Hseq _].
  destruct (insert now (Some e) (Some n) (Some b) t) as [[r|err] t']; simpl in *.
  - destruct (IH t' Hwf') as [? ?]. split; [done|lia].
  - split; [done|lia].
Qed.

(** Seeding keeps the table well-formed, whichever way it ends. *)
Lemma seed_database_wf dotenv environ now t :
  wf t →
  match (seed_database dotenv environ now (Some t)).1.2 with
  | Some t' => wf t'
  | None => False
  end.
Proof.
  intros Hwf. unfold seed_database.
  destruct (get_database_connection dotenv environ) as [[conn|] out]; [|done].
  destruct (decide _); [done|].
  destruct (executemany_wf now sample_customers t Hwf) as [Hwf' Hseq].
  destruct (executemany now sample_customers t) as [[[]|err] t']; simpl in *; [done|].
  destruct Hwf as [Hnn Hpk Hek Hs]. split; simpl; try done.
  eapply Forall_impl; [exact Hs|]. simpl. intros r Hr i Hi. specialize (Hr i Hi). lia.
Qed.

Lemma seed_database_nonempty dotenv environ now t :
  refuses (connect_kwargs dotenv environ) = None → rows t ≠ [] →
  seed_database dotenv environ now (Some t)
  = (true, Some t, [Database_already_contains_data_skipping_seed]).
Proof.
  intros Hconn Hrows. unfold seed_database, get_database_connection. rewrite Hconn.
  destruct (decide (count t > 0)) as [_|Hc]; [done|].
  exfalso. unfold count in Hc. destruct (rows t); [done|]. simpl in Hc. lia.
Qed.

(** C5, as the store has it.  When the database accepts the connection:
    on an empty customers table whose id sequence has three values left,
    [seed_database] inserts exactly the three sample rows and returns True;
    run again on the result it inserts nothing, returns True and leaves the
    table with those three rows; and on every table that has a row it
    returns True and leaves the table as it is. *)
Theorem seed_database_idempotent dotenv environ now now' t :
  refuses (connect_kwargs dotenv environ) = None →
  (rows t = [] → (customers_id_seq t + 2 ≤ int4_max)%Z →
   ∃ t1,
     seed_database dotenv environ now (Some t)
       = (true, Some t1, [Successfully_seeded_database 3])
     ∧ rows t1
       = [ mkRow (Some (customers_id_seq t)) (Some "johndoe@gmail.com") (Some "John Doe")
                 (Some "I am a software engineer") (Some now);
           mkRow (Some (customers_id_seq t + 1)) (Some "janedoe@gmail.com") (Some "Jane Doe")
                 (Some "I am a data scientist") (Some now);
           mkRow (Some (customers_id_seq t + 2)) (Some "jimdoe@gmail.com") (Some "Jim Doe")
                 (Some "I am a product manager") (Some now) ]
     ∧ seed_database dotenv environ now' (Some t1)
       = (true, Some t1, [Database_already_contains_data_skipping_seed]))
  ∧ (rows t ≠ [] →
     seed_database dotenv environ now (Some t)
     = (true, Some t, [Database_already_contains_data_skipping_seed])).
Proof.
  intros Hconn. split; [|by apply seed_database_nonempty].
  intros Hrows Hseq. destruct t as [l seq]. simpl in Hrows, Hseq. subst l.
  eexists. split_and!.
  - unfold seed_database, get_database_connection. rewrite Hconn.
    destruct (decide _) as [Hc|_]; [unfold count in Hc; simpl in Hc; lia|].
    rewrite executemany_sample_customers by done. reflexivity.
  - simpl. by replace (seq + 2) with (seq + 1 + 1) by lia.
  - by apply seed_database_nonempty.
Qed.

(** C8, as the code has it.  Of the parameters [get_database_connection]
    connects with, the port and the password are taken from the environment
    (POSTGRES_PORT, "5432" when it is not set, and POSTGRES_PASSWORD; a
    variable of the process wins over the .env file), while the host is
    always "localhost", the user "postgres" and the database "postgres". *)
Theorem connection_port_password_from_environment dotenv environ :
  let args :=
    {| host := "localhost";
       port := match environ !! "POSTGRES_PORT" with
               | Some p => p
               | None => default "5432" (dotenv !! "POSTGRES_PORT")
               end;
       database := "postgres";
       user := "postgres";
       password := match environ !! "POSTGRES_PASSWORD" with
                   | Some p => Some p
                   | None => dotenv !! "POSTGRES_PASSWORD"
                   end |} in
  get_database_connection dotenv environ
  = match refuses args with
    | None => (Some (mk_connection args), [])
    | Some e => (None, [Error_connecting_to_database e])
    end
  ∧ taken_from_environment (λ a, Some (port a))
  ∧ taken_from_environment password.
Proof.
  assert (Hlookup : ∀ k, load_dotenv dotenv environ !! k
                         = match environ !! k with Some v => Some v | None => dotenv !! k end).
  { intros k. unfold load_dotenv. rewrite lookup_union.
    by destruct (environ !! k), (dotenv !! k). }
  split_and!.
  - unfold get_database_connection, connect_kwargs, environ_get. rewrite !Hlookup.
    by destruct (environ !! "POSTGRES_PORT"), (environ !! "POSTGRES_PASSWORD").
  - exists "POSTGRES_PORT", (Some "5432"). intros d e. unfold connect_kwargs, environ_get.
    simpl. by destruct (load_dotenv d e !! "POSTGRES_PORT").
  - exists "POSTGRES_PASSWORD", None. intros d e. unfold connect_kwargs. simpl.
    by destruct (load_dotenv d e !! "POSTGRES_PASSWORD").
Qed.

End database_facts.

(** C8, as stated, does not hold: neither the host nor the user the
    connection is opened with is taken from the environment.  With
    POSTGRES_HOST=db.example.com and POSTGRES_USER=alice set, the arguments
    are still host "localhost" and user "postgres"; and whatever variable
    is named for the host, setting it to "db.example.com" does not change
    the host connected to. *)
Lemma host_user_not_from_environment :
  database.connect_kwargs ∅ samples.remote_environ
  = database.mk_kwargs "localhost" "6543" "postgres" "postgres" (Some "s3cret")
  ∧ ¬ (database.taken_from_environment (λ a, Some (database.host a))
       ∧ database.taken_from_environment (λ a, Some (database.port a))
       ∧ database.taken_from_environment (λ a, Some (database.user a))
       ∧ database.taken_from_environment database.password).
Proof.
  split; [by vm_compute|].
  intros [(var & fallback & Hhost) _].
  specialize (Hhost ∅ {[ var := "db.example.com" ]}).
  unfold database.load_dotenv in Hhost.
  rewrite lookup_union, lookup_singleton_eq, lookup_empty in Hhost.
  simpl in Hhost. discriminate Hhost.
Qed.

Lemma seed_database_idempotent_witness :
  let accepting : database.Postgres := {| database.refuses := λ _, None |} in
  (∃ t1,
     database.seed_database ∅ ∅ 1700000000 (Some (customers.mkTable [] 1))
       = (true, Some t1, [database.Successfully_seeded_database 3])
     ∧ customers.rows t1
       = [ customers.mkRow (Some 1) (Some "johndoe@gmail.com") (Some "John Doe")
             (Some "I am a software engineer") (Some 1700000000);
           customers.mkRow (Some (1 + 1)) (Some "janedoe@gmail.com") (Some "Jane Doe")
             (Some "I am a data scientist") (Some 1700000000);
           customers.mkRow (Some (1 + 2)) (Some "jimdoe@gmail.com") (Some "Jim Doe")
             (Some "I am a product manager") (Some 1700000000) ]
     ∧ database.seed_database ∅ ∅ 1700000060 (Some t1)
       = (true, Some t1, [database.Database_already_contains_data_skipping_seed]))
  ∧ database.seed_database ∅ ∅ 1700000000 (Some samples.two_customers)
    = (true, Some samples.two_customers,
       [database.Database_already_contains_data_skipping_seed]).
Proof.
  intros accepting. split.
  - apply (@seed_database_idempotent accepting ∅ ∅ 1700000000 1700000060
             (customers.mkTable [] 1)); [reflexivity|reflexivity|by vm_compute].
  - apply (@seed_database_idempotent accepting ∅ ∅ 1700000000 1700000060
             samples.two_customers); [reflexivity|]. discriminate.
Defined.

(** C5, as stated, does not hold: on an empty customers table whose id
    sequence has only two values left, [seed_database], connected, prints
    "Error seeding database", returns False and leaves no row. *)
Lemma seed_database_on_nearly_exhausted_sequence :
  let accepting : database.Postgres := {| database.refuses := λ _, None |} in
  customers.rows samples.nearly_exhausted = []
  ∧ database.seed_database ∅ ∅ 1700000000 (Some samples.nearly_exhausted)
    = (false, Some samples.exhausted,
       [database.Error_seeding_database
          (customers.sequence_generator_limit_exceeded "customers_id_seq")]).
Proof. intros accepting. split; [reflexivity|by vm_compute]. Qed.

(** ** agent.py: blank input lines *)
Section agent_facts.
Import agent.
Implicit Types (l : string) (stdin : list stdin_item)
  (answers : list (outcome run_error string)).

Lemma lstrip_whitespace l :
  Forall (λ c, isspace c = true) (String.list_ascii_of_string l) → lstrip l = "".
Proof.
  induction l as [|c l IH]; simpl; [done|].
  intros [Hc Hl]%Forall_cons. rewrite Hc. auto.
Qed.

Lemma strip_whitespace l :
  Forall (λ c, isspace c = true) (String.list_ascii_of_string l) → strip l = "".
Proof. intros Hl. unfold strip. by rewrite lstrip_whitespace. Qed.

(** Nothing is left of a line after [strip] only if it was all whitespace. *)
Lemma rstrip_empty l :
  rstrip l = "" → Forall (λ c, isspace c = true) (String.list_ascii_of_string l).
Proof.
  induction l as [|c l IH]; simpl; [constructor|].
  destruct (rstrip l) eqn:Hr; [|done].
  destruct (isspace c) eqn:Hc; [|done]. intros _. constructor; auto.
Qed.

Lemma lstrip_suffix l :
  ∃ skipped, String.list_ascii_of_string l
             = skipped ++ String.list_ascii_of_string (lstrip l)
             ∧ Forall (λ c, isspace c = true) skipped.
Proof.
  induction l as [|c l (skipped & Heq & Hsk)]; simpl.
  - by exists [].
  - destruct (isspace c) eqn:Hc.
    + exists (c :: skipped). rewrite Heq. split; [done|]. by constructor.
    + by exists [].
Qed.

Lemma strip_empty_iff l :
  strip l = "" ↔ Forall (λ c, isspace c = true) (String.list_ascii_of_string l).
Proof.
  split; [|apply strip_whitespace].
  unfold strip. intros Hr%rstrip_empty.
  destruct (lstrip_suffix l) as (skipped & -> & Hsk). by apply Forall_app.
Qed.

(** Each turn of the loop starts by asking for input. *)
Lemma loop_prompts_first item stdin answers :
  ∃ out, (loop (item :: stdin) answers).1 = input :: out.
Proof.
  destruct item as [l| |]; simpl.
  - destruct (decide _); [by eexists|].
    destruct (decide _); [destruct (loop stdin answers); by eexists|].
    destruct answers as [|[data|[e|]] answers]; try by eexists.
    + destruct (loop stdin answers); by eexists.
    + destruct (loop stdin answers); by eexists.
  - destruct (loop stdin answers); by eexists.
  - by eexists.
Qed.

(** A short session: a blank line, a query, and " QUIT ". *)
Example loop_session :
  loop [Line "  "; Line "Get johndoe@gmail.com"; Line " QUIT "] [Returned "John Doe"]
  = ([input;
      input; print Processing_your_request; run_sync "Get johndoe@gmail.com";
      print (Agent "John Doe"); print blank; print blank;
      input; print Goodbye],
     returned).
Proof. by vm_compute. Qed.

(** C9. An input line that is empty or made of whitespace only adds
    nothing to the run but the prompt that read it: no call of
    [agent.run_sync] (the pending answers are untouched), no message, and
    the loop goes on with the rest of the input, whose first event, when
    there is more input, is the next prompt. *)
Theorem blank_line_skipped l stdin answers :
  Forall (λ c, isspace c = true) (String.list_ascii_of_string l) →
  loop (Line l :: stdin) answers
  = (input :: (loop stdin answers).1, (loop stdin answers).2)
  ∧ (stdin ≠ [] → ∃ out, (loop (Line l :: stdin) answers).1 = input :: input :: out).
Proof.
  intros Hl%strip_whitespace.
  assert (loop (Line l :: stdin) answers
          = (input :: (loop stdin answers).1, (loop stdin answers).2)) as Heq.
  { simpl. rewrite Hl. simpl. by destruct (loop stdin answers). }
  split; [done|].
  intros Hmore. rewrite Heq. simpl. destruct stdin as [|item stdin]; [done|].
  destruct (loop_prompts_first item stdin answers) as [out ->]. by eexists.
Qed.

Lemma blank_line_skipped_witness :
  loop [Line "  	 "; Line "quit"] [Returned "unused"]
  = (input :: (loop [Line "quit"] [Returned "unused"]).1,
     (loop [Line "quit"] [Returned "unused"]).2)
  ∧ ([Line "quit"] ≠ [] →
     ∃ out, (loop [Line "  	 "; Line "quit"] [Returned "unused"]).1 = input :: input :: out).
Proof.
  apply (blank_line_skipped "  	 " [Line "quit"] [Returned "unused"]).
  repeat constructor.
Defined.

End agent_facts.

(** ** oauth_helper.py: what [get_credentials] returns and writes *)

(** Membership of an event in an explicit list of events. *)
Ltac event_in :=
  repeat first [ apply list_elem_of_here | apply list_elem_of_further ].
Ltac event_not_in :=
  repeat first [ apply not_elem_of_nil
               | apply not_elem_of_cons; split; [discriminate|] ].

Section oauth_facts.
Import oauth_helper.
Context `{GoogleAuth}.
Implicit Types (fs : files) (c : Credentials) (out : list event).

Lemma _run_oauth_flow_invoked fs : flow_invoked (_run_oauth_flow fs).2.
Proof.
  unfold flow_invoked, _run_oauth_flow.
  destruct (credentials_file fs) as [secrets|]; [|left; simpl; event_in].
  right. destruct (run_local_server secrets); simpl; event_in.
Qed.



(** C7. When the token file exists and loads as a valid, non-expired
    credential, [get_credentials] returns that credential; all it does
    besides printing is the write of [_save_credentials]: no refresh
    request, no consent flow in the browser, and [_run_oauth_flow] is not
    invoked. *)
Theorem get_credentials_valid_token fs content c :
  token_file fs = Some content →
  from_authorized_user_file content = Returned c →
  valid c = true → expired c = false →
  get_credentials fs
  = (Some c, (_save_credentials c fs).1,
     print Loaded_existing_OAuth_credentials :: (_save_credentials c fs).2)
  ∧ (refresh_request ∉ snd (get_credentials fs))
  ∧ (browser_flow ∉ snd (get_credentials fs))
  ∧ ¬ flow_invoked (snd (get_credentials fs)).
Proof.
  intros Hfile Hload Hvalid _.
  assert (get_credentials fs
          = (Some c, (_save_credentials c fs).1,
             print Loaded_existing_OAuth_credentials :: (_save_credentials c fs).2)) as Heq.
  { unfold get_credentials. rewrite Hfile, Hload, Hvalid. simpl.
    by destruct (_save_credentials c fs). }
  split; [done|]. rewrite Heq. simpl. unfold flow_invoked, _save_credentials.
  destruct (token_file_open_error fs); simpl;
    (split_and!; [event_not_in | event_not_in | intros [Hin|Hin]; revert Hin; event_not_in]).
Qed.

(** When [open(self.token_file, 'w')] raises, [_save_credentials] prints
    the error and leaves the files alone; [get_credentials] still returns
    the credential. *)
Lemma _save_credentials_open_error c fs e :
  token_file_open_error fs = Some e →
  _save_credentials c fs = (fs, [open_token_file_w; print (Error_saving_credentials e)]).
Proof. intros He. unfold _save_credentials. by rewrite He. Qed.



(** Conversely, when every stage fails there is nothing to return. *)
Lemma every_stage_fails_None fs :
  every_stage_fails fs → (get_credentials fs).1.1 = None.
Proof.
  intros [Hstages Hflow]. unfold get_credentials.
  destruct (_run_oauth_flow fs) as [flow out_flow]. simpl in Hflow. subst flow.
  destruct Hstages as [Hfile|[(content & e & Hfile & Hload)
                              |(content & c & e & Hfile & Hload & Hv & He & Ht & Hr)]].
  - by rewrite Hfile.
  - by rewrite Hfile, Hload.
  - rewrite Hfile, Hload. simpl. rewrite Hv, He, Ht. simpl. by rewrite Hr.
Qed.

End oauth_facts.

Lemma get_credentials_valid_token_witness :
  let auth := oauth_samples.offline in
  let c := oauth_helper.mkCredentials (Some "ya29.token") (Some "1//refresh") false true in
  oauth_helper.get_credentials oauth_samples.saved_token
  = (Some c, (oauth_helper._save_credentials c oauth_samples.saved_token).1,
     oauth_helper.print oauth_helper.Loaded_existing_OAuth_credentials
       :: (oauth_helper._save_credentials c oauth_samples.saved_token).2)
  ∧ (oauth_helper.refresh_request ∉ snd (oauth_helper.get_credentials oauth_samples.saved_token))
  ∧ (oauth_helper.browser_flow ∉ snd (oauth_helper.get_credentials oauth_samples.saved_token))
  ∧ ¬ oauth_helper.flow_invoked (snd (oauth_helper.get_credentials oauth_samples.saved_token)).
Proof.
  intros auth c.
  apply (@get_credentials_valid_token auth oauth_samples.saved_token "ya29.token" c);
    reflexivity.
Defined.



(** * Further properties of the accessors *)
Section tools_composition.
Import customers tools registered_tools.
Implicit Types (t : Table) (r : Row) (l : list Row) (e n b : string).

(** With unique emails, the filter on an email a row has keeps that row
    only. *)
Lemma filter_email_unique e l r :
  NoDup (email <$> l) → r ∈ l → email r = Some e → filter (email_is e) l = [r].
Proof.
  induction l as [|x l IH]; [by intros _ ?%elem_of_nil|].
  rewrite fmap_cons, NoDup_cons. intros [Hx Hnd] Hin Hr. rewrite filter_cons.
  destruct (decide (email_is e x)) as [Hex|Hex]; unfold email_is in Hex.
  - assert (Some e ∉ email <$> l) as Habs by (by rewrite <- Hex).
    rewrite filter_email_absent by done.
    apply elem_of_cons in Hin as [->|Hin]; [done|].
    exfalso. apply Habs. rewrite <- Hr. by apply list_elem_of_fmap_2.
  - apply elem_of_cons in Hin as [->|Hin]; [done|]. by apply IH.
Qed.





Lemma filter_filter_email e e' l :
  filter (email_is e') (filter (λ r, ¬ email_is e r) l)
  = if decide (e' = e) then [] else filter (email_is e') l.
Proof.
  induction l as [|x l IH]; [by destruct (decide _)|].
  rewrite (filter_cons (λ r, ¬ email_is e r)).
  destruct (decide (¬ email_is e x)) as [Hx|Hx].
  - rewrite !filter_cons, IH.
    destruct (decide (e' = e)) as [->|Hne]; [|done].
    by destruct (decide (email_is e x)).
  - rewrite IH, filter_cons. destruct (decide (e' = e)) as [->|Hne]; [done|].
    destruct (decide (email_is e' x)) as [Hy|Hy]; [|done].
    exfalso. apply Hx. unfold email_is in *. congruence.
Qed.

(** X2. For every table, [delete_customer_by_email] returns the rows
    [get_customer_by_email] returns for that email; afterwards a read of the
    email is empty, reads of every other email are what they were, and a
    second delete of the email finds nothing and changes nothing. *)
Theorem delete_then_get_by_email e t :
  ∃ resp t1,
    get_customer_by_email e t = (Returned resp, t)
    ∧ delete_customer_by_email e t = (Returned resp, t1)
    ∧ get_customer_by_email e t1 = (Returned (mkAPIResponse [] None), t1)
    ∧ (∀ e', e' ≠ e →
         (get_customer_by_email e' t1).1 = (get_customer_by_email e' t).1)
    ∧ delete_customer_by_email e t1 = (Returned (mkAPIResponse [] None), t1).
Proof.
  unfold delete_customer_by_email, get_customer_by_email, delete_eq_email, select_eq_email.
  simpl. eexists _, _. split_and!; try reflexivity; cbn [rows customers_id_seq].
  - by rewrite filter_filter_email, decide_True.
  - intros e' Hne. by rewrite filter_filter_email, decide_False.
  - rewrite filter_filter_email, decide_True by done. do 2 f_equal.
    rewrite list_filter_filter. apply list_filter_iff. tauto.
Qed.

(** X3. On a well-formed table a read by email returns no row or one row,
    a row of the table with that email, and leaves the table as it is. *)
Theorem get_customer_by_email_at_most_one e t :
  wf t →
  ∃ resp,
    get_customer_by_email e t = (Returned resp, t)
    ∧ (length (data resp) ≤ 1)%nat
    ∧ ∀ r, r ∈ data resp → r ∈ rows t ∧ email r = Some e.
Proof.
  intros Hwf. unfold get_customer_by_email, select_eq_email.
  eexists. split; [reflexivity|]. simpl.
  assert (Hmem : ∀ r, r ∈ filter (email_is e) (rows t) → r ∈ rows t ∧ email r = Some e).
  { intros r [Hr Hin]%list_elem_of_filter. done. }
  split; [|done].
  destruct (filter (email_is e) (rows t)) as [|r rest] eqn:Hf; [simpl; lia|].
  destruct (Hmem r) as [Hin Hr]; [apply list_elem_of_here|].
  rewrite (filter_email_unique e (rows t) r (wf_email_key _ Hwf) Hin Hr) in Hf.
  injection Hf as <-. simpl. lia.
Qed.

Lemma get_customer_by_email_at_most_one_witness :
  ∃ resp,
    get_customer_by_email "b@x.com" samples.two_customers
      = (Returned resp, samples.two_customers)
    ∧ (length (data resp) ≤ 1)%nat
    ∧ ∀ r, r ∈ data resp → r ∈ rows samples.two_customers ∧ email r = Some "b@x.com".
Proof.
  apply (get_customer_by_email_at_most_one "b@x.com" samples.two_customers).
  apply two_customers_wf.
Defined.

(** X4. Accepted or refused, [create_customer] leaves the stored rows in
    place (a new row only comes after them) and does not change what a read
    of any other email returns.  It takes at most one value from the id
    sequence: exactly one when no value holds NUL and the sequence has a
    value left, and none otherwise, the table then being untouched. *)
Theorem create_customer_frame now e n b t :
  rows t `prefix_of` rows (create_customer now e n b t).2
  ∧ (valid_triple e n b → (customers_id_seq t ≤ int4_max)%Z →
     customers_id_seq (create_customer now e n b t).2 = customers_id_seq t + 1)
  ∧ (¬ valid_triple e n b ∨ (customers_id_seq t > int4_max)%Z →
     ∃ err, create_customer now e n b t = (Raised (mkAPIError err), t))
  ∧ ∀ e', e' ≠ e →
      (get_customer_by_email e' (create_customer now e n b t).2).1
      = (get_customer_by_email e' t).1.
Proof.
  unfold create_customer, insert, get_customer_by_email, select_eq_email.
  destruct (negb _) eqn:Hvalid.
  { simpl. split_and!; [done| |by eexists|done].
    intros Hv. by rewrite valid_triple_text_ok in Hvalid. }
  assert (valid_triple e n b) as Hv.
  { simpl in Hvalid. unfold valid_triple.
    by destruct (has_NUL e), (has_NUL n), (has_NUL b). }
  destruct (decide (customers_id_seq t > int4_max)) as [Hmax|Hmax].
  { simpl. split_and!; [done|intros; lia|by eexists|done]. }
  destruct (check_constraints _ _); simpl; split_and!; try done.
  - intros [?|?]; [done|lia].
  - by apply prefix_app_r.
  - intros [?|?]; [done|lia].
  - intros e' Hne. rewrite filter_app, filter_cons, filter_nil.
    destruct (decide (email_is e' _)) as [Heq|_]; [|by rewrite app_nil_r].
    unfold email_is in Heq. simpl in Heq. congruence.
Qed.

(** X5. A create that is run again (as the agent does on a retry, with
    whatever valid name and bio) after it succeeded is refused by the
    UNIQUE constraint, as long as the id sequence has a value left for it,
    and the customer read back is still the first one. *)
Theorem create_customer_retry now now' e n b n' b' t :
  wf t → valid_triple e n b → valid_triple e n' b' →
  (customers_id_seq t + 1 ≤ int4_max)%Z →
  Some e ∉ email <$> rows t →
  ∃ r t1 t2,
    create_customer now e n b t = (Returned (mkAPIResponse [r] None), t1)
    ∧ create_customer now' e n' b' t1
      = (Raised (mkAPIError (unique_violation "customers_email_key")), t2)
    ∧ rows t2 = rows t1
    ∧ get_customer_by_email e t2 = (Returned (mkAPIResponse [r] None), t2)
    ∧ full_name r = Some n ∧ bio r = Some b.
Proof.
  intros Hwf Hvalid Hvalid' Hseq He.
  pose proof (insert_wf now (Some e) (Some n) (Some b) t Hwf) as Hwf1.
  unfold create_customer. rewrite insert_fresh in * by (done || lia). simpl in Hwf1.
  eexists _, _, _. split; [reflexivity|].
  rewrite insert_taken; [|done|done|simpl; lia|].
  2:{ simpl. rewrite fmap_app. apply elem_of_app. right. apply list_elem_of_here. }
  split_and!; try reflexivity.
  unfold get_customer_by_email, select_eq_email. simpl.
  rewrite filter_app, filter_email_absent by done. simpl.
  rewrite filter_cons, filter_nil.
  destruct (decide (email_is e _)) as [_|Hne]; [done|by destruct Hne].
Qed.

Lemma create_customer_retry_witness :
  ∃ r t1 t2,
    create_customer 1700000000 "a@x.com" "A" "bio1" (mkTable [] 1)
      = (Returned (mkAPIResponse [r] None), t1)
    ∧ create_customer 1700000001 "a@x.com" "A" "bio1" t1
      = (Raised (mkAPIError (unique_violation "customers_email_key")), t2)
    ∧ rows t2 = rows t1
    ∧ get_customer_by_email "a@x.com" t2 = (Returned (mkAPIResponse [r] None), t2)
    ∧ full_name r = Some "A" ∧ bio r = Some "bio1".
Proof.
  apply (create_customer_retry 1700000000 1700000001 "a@x.com" "A" "bio1" "A" "bio1"
           (mkTable [] 1)).
  - apply wf_empty.
  - by vm_compute.
  - by vm_compute.
  - by vm_compute.
  - simpl. apply not_elem_of_nil.
Defined.

(** X6. Identifiers are not reused: on a well-formed table whose id
    sequence has a value left, deleting a customer and creating one again
    under the same email, with valid values, gives a record whose id is
    greater than the deleted one's and differs from the id of every row the
    table held. *)
Theorem recreate_gets_new_id now e n b t r i :
  wf t → valid_triple e n b → (customers_id_seq t ≤ int4_max)%Z →
  r ∈ rows t → email r = Some e → id r = Some i →
  ∃ r' t2 i',
    create_customer now e n b (delete_customer_by_email e t).2
      = (Returned (mkAPIResponse [r'] None), t2)
    ∧ id r' = Some i' ∧ i < i'
    ∧ ∀ x, x ∈ rows t → id x ≠ id r'.
Proof.
  intros Hwf Hvalid Hmax Hin Hr Hi.
  pose proof (delete_wf e t Hwf) as Hwf1.
  unfold delete_customer_by_email, delete_eq_email in *. simpl in *.
  assert (Some e ∉ email <$> filter (λ r, ¬ email_is e r) (rows t)) as Habs.
  { intros (x & Hx & [Hne _]%list_elem_of_filter)%list_elem_of_fmap.
    apply Hne. by unfold email_is. }
  unfold create_customer. rewrite insert_fresh by done. simpl.
  pose proof (wf_seq _ Hwf) as Hseq. rewrite Forall_forall in Hseq.
  eexists _, _, _. split_and!; [reflexivity|reflexivity|by apply (Hseq r)|].
  intros x Hx Heq. simpl in Heq. specialize (Hseq x Hx _ Heq). lia.
Qed.

Lemma recreate_gets_new_id_witness :
  ∃ r' t2 i',
    create_customer 1700000120 "a@x.com" "A3" "bio3"
      (delete_customer_by_email "a@x.com" samples.two_customers).2
      = (Returned (mkAPIResponse [r'] None), t2)
    ∧ id r' = Some i' ∧ 1 < i'
    ∧ ∀ x, x ∈ rows samples.two_customers → id x ≠ id r'.
Proof.
  apply (recreate_gets_new_id 1700000120 "a@x.com" "A3" "bio3" samples.two_customers
           (mkRow (Some 1) (Some "a@x.com") (Some "A") (Some "bio1") (Some 1700000000)) 1).
  - apply two_customers_wf.
  - by vm_compute.
  - by vm_compute.
  - apply list_elem_of_here.
  - reflexivity.
  - reflexivity.
Defined.

Lemma run_tool_wf c t :
  wf t → wf (run_tool c t).2 ∧ (customers_id_seq t ≤ customers_id_seq (run_tool c t).2)%Z.
Proof.
  intros Hwf. destruct c as [now e n b|e|e n b|e]; simpl.
  - split; [by apply create_customer_wf|].
    unfold create_customer.
    destruct (insert_rows_seq now (Some e) (Some n) (Some b) t) as [Hseq _].
    destruct (insert now (Some e) (Some n) (Some b) t) as [[?|?] ?]; simpl in *; lia.
  - split; [done|lia].
  - split; [by apply update_customer_by_email_wf|].
    unfold update_customer_by_email, update_eq_email.
    destruct (filter _ _); simpl; lia.
  - split; [by apply delete_customer_by_email_wf|]. simpl. lia.
Qed.

(** X7. Whatever tool calls the model makes, in whatever order, a
    well-formed table stays well-formed (no NULL in a NOT NULL column, ids
    and emails unique, every id below the sequence), so every email keeps
    at most one row; and the id sequence never goes back. *)
Theorem run_tools_wf cs t :
  wf t →
  wf (run_tools cs t).2
  ∧ (customers_id_seq t ≤ customers_id_seq (run_tools cs t).2)%Z
  ∧ ∀ e, (length (select_eq_email e (run_tools cs t).2) ≤ 1)%nat.
Proof.
  intros Hwf.
  assert (wf (run_tools cs t).2
          ∧ (customers_id_seq t ≤ customers_id_seq (run_tools cs t).2)%Z) as [Hwf' Hseq].
  { revert t Hwf. induction cs as [|c cs IH]; intros t Hwf; simpl; [split; [done|lia]|].
    destruct (run_tool_wf c t Hwf) as [Hwf1 Hseq1].
    destruct (run_tool c t) as [result t1]. simpl in *.
    destruct (IH t1 Hwf1) as [Hwf2 Hseq2].
    destruct (run_tools cs t1) as [results t2]. simpl in *. split; [done|lia]. }
  split_and!; [done..|].
  intros e. unfold select_eq_email.
  destruct (filter (email_is e) (rows (run_tools cs t).2)) as [|r rest] eqn:Hf; [simpl; lia|].
  assert (r ∈ filter (email_is e) (rows (run_tools cs t).2)) as [Hr Hin]%list_elem_of_filter
    by (rewrite Hf; apply list_elem_of_here).
  rewrite (filter_email_unique e _ r (wf_email_key _ Hwf') Hin Hr) in Hf.
  injection Hf as <-. simpl. lia.
Qed.

Lemma run_tools_wf_witness :
  let cs := [call_create_customer 1700000000 "a@x.com" "A" "bio1";
             call_create_customer 1700000001 "a@x.com" "A" "bio1";
             call_update_customer_by_email "a@x.com" "A2" "bio2";
             call_delete_customer_by_email "nobody@x.com";
             call_get_customer_by_email "a@x.com"] in
  wf (run_tools cs (mkTable [] 1)).2
  ∧ (1 ≤ customers_id_seq (run_tools cs (mkTable [] 1)).2)%Z
  ∧ ∀ e, (length (select_eq_email e (run_tools cs (mkTable [] 1)).2) ≤ 1)%nat.
Proof.
  intros cs. apply (run_tools_wf cs (mkTable [] 1)). apply wf_empty.
Defined.

End tools_composition.

(** * Further properties of seeding *)
Section seeding_outcomes.
Import customers database.
Context `{Postgres}.
Implicit Types (t : Table) (dotenv environ : gmap string string).

(** With no row in the table the three sample inserts are accepted when
    the id sequence has three values left. *)
Lemma executemany_sample_customers_empty now t :
  rows t = [] → (customers_id_seq t + 2 ≤ int4_max)%Z →
  ∃ t', executemany now sample_customers t = (Returned (), t')
        ∧ length (rows t') = 3%nat.
Proof.
  destruct t as [l seq]. cbn [rows customers_id_seq]. intros -> Hseq.
  rewrite executemany_sample_customers by done. by eexists.
Qed.

(** With fewer than three values left, one of the three inserts finds the
    sequence at its limit. *)
Lemma executemany_sample_customers_exhausted now t :
  rows t = [] → (customers_id_seq t + 2 > int4_max)%Z →
  ∃ t', executemany now sample_customers t
        = (Raised (sequence_generator_limit_exceeded "customers_id_seq"), t')
        ∧ (customers_id_seq t ≤ customers_id_seq t')%Z.
Proof.
  destruct t as [l seq]. cbn [rows customers_id_seq]. intros -> Hseq.
  destruct (decide (seq > int4_max)) as [Hmax|Hmax].
  { unfold sample_customers. cbn [executemany].
    rewrite insert_exhausted; [|by vm_compute|done].
    eexists. split; [reflexivity|simpl; lia]. }
  destruct (decide (seq = int4_max)) as [->|Hne].
  { eexists. split; [by vm_compute|by vm_compute]. }
  assert (seq = int4_max - 1) as -> by lia.
  eexists. split; [by vm_compute|by vm_compute].
Qed.

Lemma count_zero t : ¬ count t > 0 → rows t = [].
Proof. unfold count. destruct (rows t); [done|]. simpl. lia. Qed.

Lemma count_positive t : count t > 0 → rows t ≠ [].
Proof. unfold count. destruct (rows t); [simpl; lia|done]. Qed.

(** X8. [seed_database] returns False in exactly three cases: the server
    refuses the connection, and the connection error is printed; the
    database reached has no customers table; the table is empty and its id
    sequence has fewer than three values left.  In the last two cases
    "Error seeding database" is printed with the store's error.  Whenever
    False is returned the rows are the ones from before, and when True is
    returned "Error seeding database" is not printed. *)
Theorem seed_database_false_iff dotenv environ now db :
  ((seed_database dotenv environ now db).1.1 = false
   ↔ is_Some (refuses (connect_kwargs dotenv environ))
     ∨ db = None
     ∨ ∃ t, db = Some t ∧ rows t = [] ∧ (customers_id_seq t + 2 > int4_max)%Z)
  ∧ (∀ err, refuses (connect_kwargs dotenv environ) = Some err →
       seed_database dotenv environ now db
       = (false, db, [Error_connecting_to_database err]))
  ∧ (refuses (connect_kwargs dotenv environ) = None → db = None →
       seed_database dotenv environ now db
       = (false, None, [Error_seeding_database (undefined_table "customers")]))
  ∧ (∀ t, refuses (connect_kwargs dotenv environ) = None → db = Some t →
       rows t = [] → (customers_id_seq t + 2 > int4_max)%Z →
       ∃ seq', seed_database dotenv environ now db
               = (false, Some (mkTable [] seq'),
                  [Error_seeding_database
                     (sequence_generator_limit_exceeded "customers_id_seq")])
               ∧ (customers_id_seq t ≤ seq')%Z)
  ∧ ((seed_database dotenv environ now db).1.1 = false →
       rows <$> (seed_database dotenv environ now db).1.2 = rows <$> db)
  ∧ ((seed_database dotenv environ now db).1.1 = true →
       ∀ err, Error_seeding_database err ∉ (seed_database dotenv environ now db).2).
Proof.
  unfold seed_database, get_database_connection.
  destruct (refuses (connect_kwargs dotenv environ)) as [err|] eqn:Hconn.
  { split_and!; try done.
    - split; [by left; eauto|done].
    - by intros ? [= <-]. }
  destruct db as [t|].
  2:{ split_and!; try done. split; [by right; left|done]. }
  assert (∀ err, Error_seeding_database err
                 ∉ [Database_already_contains_data_skipping_seed]) as Hskip.
  { intros err. apply not_elem_of_cons. split; [done|apply not_elem_of_nil]. }
  assert (∀ n err, Error_seeding_database err ∉ [Successfully_seeded_database n]) as Hdone.
  { intros n err. apply not_elem_of_cons. split; [done|apply not_elem_of_nil]. }
  destruct (decide (count t > 0)) as [Hc|Hc].
  { apply count_positive in Hc. simpl. split_and!; try done.
    - split; [done|]. intros [[? [=]]|[[=]|(t' & [= <-] & ? & _)]]. done.
    - intros t' _ [= <-] ?. done. }
  apply count_zero in Hc.
  destruct (decide (customers_id_seq t + 2 ≤ int4_max)%Z) as [Hseq|Hseq].
  - destruct (executemany_sample_customers_empty now t Hc Hseq) as (t' & -> & _). simpl.
    split_and!; try done.
    + split; [done|]. intros [[? [=]]|[[=]|(t'' & [= <-] & _ & ?)]]. lia.
    + intros t'' _ [= <-] _ ?. lia.
  - destruct (executemany_sample_customers_exhausted now t Hc) as (t' & -> & Hle); [lia|].
    simpl. split_and!; try done.
    + split; [|done]. intros _. right; right. exists t. split_and!; [done|done|lia].
    + intros t'' _ [= <-] _ _. rewrite Hc. by eexists.
Qed.

(** X9. When the server accepts the connection and the customers table
    either has a row or is empty with three values left in its id sequence,
    [seed_database] returns True and the table is not empty afterwards: a
    table that had rows is untouched, an empty one holds three rows; in both
    cases the rows from before are still there, first and in order. *)
Theorem seed_database_leaves_data dotenv environ now t :
  refuses (connect_kwargs dotenv environ) = None →
  rows t ≠ [] ∨ (customers_id_seq t + 2 ≤ int4_max)%Z →
  ∃ t' out,
    seed_database dotenv environ now (Some t) = (true, Some t', out)
    ∧ rows t' ≠ []
    ∧ rows t `prefix_of` rows t'
    ∧ (rows t ≠ [] → t' = t)
    ∧ (rows t = [] → length (rows t') = 3%nat).
Proof.
  intros Hconn Hroom. unfold seed_database, get_database_connection. rewrite Hconn.
  destruct (decide (count t > 0)) as [Hc|Hc].
  - apply count_positive in Hc. eexists _, _. split; [reflexivity|]. by split_and!.
  - apply count_zero in Hc. destruct Hroom as [?|Hseq]; [done|].
    destruct (executemany_sample_customers_empty now t Hc Hseq) as (t' & -> & Hlen).
    eexists _, _. split; [reflexivity|]. split_and!; try done.
    + intros Hnil. by rewrite Hnil in Hlen.
    + rewrite Hc. apply prefix_nil.
Qed.

End seeding_outcomes.

Lemma seed_database_leaves_data_witness :
  let accepting : database.Postgres := {| database.refuses := λ _, None |} in
  ∃ t' out,
    database.seed_database ∅ ∅ 1700000000 (Some samples.two_customers) = (true, Some t', out)
    ∧ customers.rows t' ≠ []
    ∧ customers.rows samples.two_customers `prefix_of` customers.rows t'
    ∧ (customers.rows samples.two_customers ≠ [] → t' = samples.two_customers)
    ∧ (customers.rows samples.two_customers = [] → length (customers.rows t') = 3%nat).
Proof.
  intros accepting.
  apply (@seed_database_leaves_data accepting ∅ ∅ 1700000000 samples.two_customers).
  - reflexivity.
  - left. discriminate.
Defined.

(** * Further properties of the interaction loop *)
Section loop_facts.
Import agent.
Implicit Types (l : string) (stdin : list stdin_item)
  (answers : list (outcome run_error string)).

(** X10. The agent is only ever run on a query: the prompt passed to
    [agent.run_sync] is an input line with its surrounding whitespace
    removed, it is never empty and never one of the words that end the
    session. *)
Theorem run_sync_only_on_queries stdin answers q :
  run_sync q ∈ (loop stdin answers).1 →
  q ≠ "" ∧ (lower q ∉ ["quit"; "exit"; "q"]) ∧ ∃ l, Line l ∈ stdin ∧ q = strip l.
Proof.
  revert answers. induction stdin as [|item stdin IH]; intros answers; simpl.
  { by intros ?%elem_of_nil. }
  assert (Hrest : ∀ answers',
    run_sync q ∈ (loop stdin answers').1 →
    q ≠ "" ∧ (lower q ∉ ["quit"; "exit"; "q"])
    ∧ ∃ l, Line l ∈ item :: stdin ∧ q = strip l).
  { intros answers' (? & ? & l & ? & ?)%IH. split_and!; [done..|].
    exists l. split; [by apply list_elem_of_further|done]. }
  destruct item as [l| |].
  - destruct (decide (lower (strip l) ∈ _)) as [Hquit|Hquit]; simpl.
    { intros Hin. repeat (apply elem_of_cons in Hin as [Hin|Hin]; [done|]).
      by apply elem_of_nil in Hin. }
    destruct (decide (strip l = "")) as [Hblank|Hblank].
    { specialize (Hrest answers). destruct (loop stdin answers) as [out st]. simpl in *.
      intros [?|?]%elem_of_cons; [done|auto]. }
    assert (Hhere : q = strip l →
      q ≠ "" ∧ (lower q ∉ ["quit"; "exit"; "q"])
      ∧ ∃ l', Line l' ∈ Line l :: stdin ∧ q = strip l').
    { intros ->. split_and!; [done..|]. exists l. split; [apply list_elem_of_here|done]. }
    destruct answers as [|[data|[e|]] answers]; simpl.
    + intros Hin. repeat (apply elem_of_cons in Hin as [Hin|Hin]; [try done|]).
      * injection Hin as ->. auto.
      * by apply elem_of_nil in Hin.
    + specialize (Hrest answers). destruct (loop stdin answers) as [out st]. simpl in *.
      intros Hin. repeat (apply elem_of_cons in Hin as [Hin|Hin]; [try done|]); [|auto].
      injection Hin as ->. auto.
    + specialize (Hrest answers). destruct (loop stdin answers) as [out st]. simpl in *.
      intros Hin. repeat (apply elem_of_cons in Hin as [Hin|Hin]; [try done|]); [|auto].
      injection Hin as ->. auto.
    + intros Hin. repeat (apply elem_of_cons in Hin as [Hin|Hin]; [try done|]).
      * injection Hin as ->. auto.
      * by apply elem_of_nil in Hin.
  - specialize (Hrest answers). destruct (loop stdin answers) as [out st]. simpl in *.
    intros Hin. repeat (apply elem_of_cons in Hin as [Hin|Hin]; [try done|]). auto.
  - intros Hin. repeat (apply elem_of_cons in Hin as [Hin|Hin]; [done|]).
    by apply elem_of_nil in Hin.
Qed.

Lemma run_sync_only_on_queries_witness :
  "Get johndoe@gmail.com" ≠ ""
  ∧ (lower "Get johndoe@gmail.com" ∉ ["quit"; "exit"; "q"])
  ∧ ∃ l, Line l ∈ [Line "  "; Line " Get johndoe@gmail.com "; Line " QUIT "]
         ∧ "Get johndoe@gmail.com" = strip l.
Proof.
  apply (run_sync_only_on_queries
           [Line "  "; Line " Get johndoe@gmail.com "; Line " QUIT "]
           [Returned "John Doe"] "Get johndoe@gmail.com").
  by apply (bool_decide_unpack _).
Defined.

(** X11. Nothing but a word of farewell or Ctrl-C ends the loop: when no
    input line is quit, exit or q (whatever its case and surrounding
    whitespace), [input()] is never interrupted and no agent run is
    interrupted, the loop is still asking for input after any number of
    lines, ends of input and agent errors. *)
Theorem loop_survives_errors stdin answers :
  (∀ l, Line l ∈ stdin → lower (strip l) ∉ ["quit"; "exit"; "q"]) →
  KeyboardInterrupt ∉ stdin →
  Raised Interrupt ∉ answers →
  (loop stdin answers).2 = waiting.
Proof.
  revert answers. induction stdin as [|item stdin IH]; intros answers Hquit Hkbd Hint;
    simpl; [done|].
  apply not_elem_of_cons in Hkbd as [Hitem Hkbd].
  assert (Hquit' : ∀ l, Line l ∈ stdin → lower (strip l) ∉ ["quit"; "exit"; "q"]).
  { intros l Hl. apply Hquit. by apply list_elem_of_further. }
  destruct item as [l| |]; [| |done].
  - destruct (decide (lower (strip l) ∈ _)) as [Hq|_].
    { exfalso. by apply (Hquit l); [apply list_elem_of_here|]. }
    destruct (decide (strip l = "")) as [_|_].
    { specialize (IH answers Hquit' Hkbd Hint). by destruct (loop stdin answers). }
    destruct answers as [|[data|[e|]] answers]; [done| | |].
    + apply not_elem_of_cons in Hint as [_ Hint].
      specialize (IH answers Hquit' Hkbd Hint). by destruct (loop stdin answers).
    + apply not_elem_of_cons in Hint as [_ Hint].
      specialize (IH answers Hquit' Hkbd Hint). by destruct (loop stdin answers).
    + exfalso. apply Hint, list_elem_of_here.
  - specialize (IH answers Hquit' Hkbd Hint). by destruct (loop stdin answers).
Qed.

Lemma loop_survives_errors_witness :
  (loop [EOFError; Line "Get nobody"; EOFError; Line "   "]
        [Raised (Exception "tool failed")]).2 = waiting.
Proof.
  apply (loop_survives_errors [EOFError; Line "Get nobody"; EOFError; Line "   "]
           [Raised (Exception "tool failed")]).
  - intros l Hl. apply (bool_decide_unpack _).
    repeat (apply elem_of_cons in Hl as [Hl|Hl]; [try discriminate Hl|]).
    + injection Hl as ->. reflexivity.
    + injection Hl as ->. reflexivity.
    + by apply elem_of_nil in Hl.
  - repeat (apply not_elem_of_cons; split; [discriminate|]). apply not_elem_of_nil.
  - repeat (apply not_elem_of_cons; split; [discriminate|]). apply not_elem_of_nil.
Defined.

End loop_facts.

(** * Start-up of the agent *)
Section agent_main_facts.
Import agent_main.
Context `{Clients} `{database.Postgres}.
Implicit Types (dotenv environ : gmap string string) (db : option customers.Table).

(** X12. [get_openai_model] never changes [os.environ] (the assignment at
    line 44 writes back the value just read); it raises ValueError, without
    constructing a model, exactly when OPENAI_API_KEY is unset or empty. *)
Theorem get_openai_model_environ model_name environ :
  (get_openai_model model_name environ).1.2 = environ
  ∧ ((∃ msg, (get_openai_model model_name environ).1.1 = Raised (ValueError msg))
     ↔ unset_or_empty environ "OPENAI_API_KEY")
  ∧ (construct_model model_name ∈ (get_openai_model model_name environ).2
     ↔ ¬ unset_or_empty environ "OPENAI_API_KEY").
Proof.
  unfold get_openai_model, unset_or_empty.
  destruct (environ !! "OPENAI_API_KEY") as [[|c key]|] eqn:Hkey; simpl.
  - split_and!; [done| |].
    + split; [by right|by eexists].
    + split; [by intros ?%elem_of_nil|]. intros Hn. destruct Hn. by right.
  - rewrite insert_id by done.
    destruct (OpenAIModel model_name) as [model|e]; simpl; (split_and!; [done| |]).
    + split; [by intros [? ?]|by intros [?|?]].
    + split; [by intros _ [?|?]|]. intros _. apply list_elem_of_here.
    + split; [by intros [? ?]|by intros [?|?]].
    + split; [by intros _ [?|?]|]. intros _. apply list_elem_of_here.
  - split_and!; [done| |].
    + split; [by left|by eexists].
    + split; [by intros ?%elem_of_nil|]. intros Hn. destruct Hn. by left.
Qed.

(** X13. Without a usable OPENAI_API_KEY, in the process environment or,
    failing that, in the .env file, running agent.py stops at the import
    with ValueError: nothing is printed, no client is constructed, the
    table is not touched and no input is read. *)
Theorem script_without_api_key dotenv environ now db stdin answers :
  unset_or_empty (database.load_dotenv dotenv environ) "OPENAI_API_KEY" →
  ∃ msg, script dotenv environ now db stdin answers = (Raised (ValueError msg), [], db).
Proof.
  unfold script, get_openai_model, unset_or_empty.
  intros [Hkey|Hkey]; rewrite Hkey; by eexists.
Qed.

(** X14. When SUPABASE_URL or SUPABASE_KEY is unset or empty, [main] prints
    its two opening lines and the failure, and returns: no client is
    constructed, [seed_database] is not called (the table is as before and
    nothing of its output shows) and no input is read, whatever is typed. *)
Theorem main_without_supabase_settings dotenv environ now db stdin answers :
  unset_or_empty environ "SUPABASE_URL" ∨ unset_or_empty environ "SUPABASE_KEY" →
  main dotenv environ now db stdin answers
  = ([print DB_Agent_Natural_Language_Database_Interface;
      print Type_quit_or_exit_to_stop_the_agent;
      print (Failed_to_connect_to_Supabase
               "Supabase URL and key must be set in environment variables")],
     db, agent.returned).
Proof.
  unfold main, get_supabase_client, unset_or_empty.
  intros [[Hu|Hu]|[Hk|Hk]]; rewrite ?Hu, ?Hk; try done.
  - by destruct (environ !! "SUPABASE_URL") as [[|??]|].
  - by destruct (environ !! "SUPABASE_URL") as [[|??]|].
Qed.

(** X15. Once the store client is constructed, [main] prints "Database
    seeded successfully" whatever [seed_database] did: also when the
    database refused the connection and [seed_database] printed the error,
    returned False and seeded nothing.  The warning of line 114 is never
    printed. *)
Theorem main_reports_seeding_success dotenv environ now db stdin answers :
  (∀ e, print (Database_seeding_failed e) ∉ (main dotenv environ now db stdin answers).1.1)
  ∧ ∀ out err,
      get_supabase_client environ = (Returned (), out) →
      database.refuses (database.connect_kwargs dotenv environ) = Some err →
      main dotenv environ now db stdin answers
      = ([print DB_Agent_Natural_Language_Database_Interface;
          print Type_quit_or_exit_to_stop_the_agent]
           ++ out
           ++ [print Connected_to_Supabase_successfully;
               database_output (database.Error_connecting_to_database err);
               print Database_seeded_successfully]
           ++ (loop_event <$> (agent.loop stdin answers).1),
         db, (agent.loop stdin answers).2).
Proof.
  split.
  - intros e. unfold main.
    assert (Hclient : ∀ out', (get_supabase_client environ).2 = out' →
                              print (Database_seeding_failed e) ∉ out').
    { intros out' <-. unfold get_supabase_client.
      destruct (environ !! "SUPABASE_URL") as [[|??]|], (environ !! "SUPABASE_KEY") as [[|??]|];
        simpl; try apply not_elem_of_nil.
      destruct (create_client _ _); simpl;
        (apply not_elem_of_cons; split; [done|apply not_elem_of_nil]). }
    destruct (get_supabase_client environ) as [[[]|err] out]; simpl.
    + destruct (database.seed_database dotenv environ now db) as [[ok db'] seed_out].
      destruct (agent.loop stdin answers) as [loop_out st]. simpl.
      repeat (rewrite not_elem_of_app || rewrite not_elem_of_cons).
      split_and!; try done; try apply not_elem_of_nil; try (by apply Hclient);
        by intros (? & ? & ?)%list_elem_of_fmap.
    + repeat (rewrite not_elem_of_app || rewrite not_elem_of_cons).
      split_and!; try done; try apply not_elem_of_nil; by apply Hclient.
  - intros out err Hclient Hrefused. unfold main. rewrite Hclient.
    unfold database.seed_database, database.get_database_connection. rewrite Hrefused.
    by destruct (agent.loop stdin answers).
Qed.

End agent_main_facts.

Lemma script_without_api_key_witness :
  let clients := agent_samples.constructing in
  let server := agent_samples.unreachable in
  ∃ msg,
    agent_main.script ∅ agent_samples.supabase_environ 1700000000
      (Some samples.two_customers) [agent.Line "Get a@x.com"] [Returned "A"]
    = (Raised (agent_main.ValueError msg), [], Some samples.two_customers).
Proof.
  intros clients server.
  apply (@script_without_api_key clients server ∅ agent_samples.supabase_environ
           1700000000 (Some samples.two_customers) [agent.Line "Get a@x.com"]
           [Returned "A"]).
  left. by vm_compute.
Defined.

Lemma main_without_supabase_settings_witness :
  let clients := agent_samples.constructing in
  let server := agent_samples.unreachable in
  agent_main.main ∅ {[ "SUPABASE_URL" := "http://127.0.0.1:54321" ]} 1700000000
    (Some samples.two_customers) [agent.Line "Get a@x.com"] [Returned "A"]
  = ([agent_main.print agent_main.DB_Agent_Natural_Language_Database_Interface;
      agent_main.print agent_main.Type_quit_or_exit_to_stop_the_agent;
      agent_main.print (agent_main.Failed_to_connect_to_Supabase
                          "Supabase URL and key must be set in environment variables")],
     Some samples.two_customers, agent.returned).
Proof.
  intros clients server.
  apply (@main_without_supabase_settings clients server ∅
           {[ "SUPABASE_URL" := "http://127.0.0.1:54321" ]} 1700000000
           (Some samples.two_customers) [agent.Line "Get a@x.com"] [Returned "A"]).
  right. left. by vm_compute.
Defined.

Lemma main_reports_seeding_success_witness :
  let clients := agent_samples.constructing in
  let server := agent_samples.unreachable in
  agent_main.main ∅ agent_samples.supabase_environ 1700000000
    (Some (customers.mkTable [] 1)) [agent.Line "quit"] []
  = ([agent_main.print agent_main.DB_Agent_Natural_Language_Database_Interface;
      agent_main.print agent_main.Type_quit_or_exit_to_stop_the_agent]
       ++ [agent_main.construct_client "http://127.0.0.1:54321" "anon-key"]
       ++ [agent_main.print agent_main.Connected_to_Supabase_successfully;
           agent_main.database_output
             (database.Error_connecting_to_database "connection refused");
           agent_main.print agent_main.Database_seeded_successfully]
       ++ (agent_main.loop_event <$> (agent.loop [agent.Line "quit"] []).1),
     Some (customers.mkTable [] 1), (agent.loop [agent.Line "quit"] []).2).
Proof.
  intros clients server.
  apply (@main_reports_seeding_success clients server ∅ agent_samples.supabase_environ
           1700000000 (Some (customers.mkTable [] 1)) [agent.Line "quit"] []).
  - by vm_compute.
  - reflexivity.
Defined.

(** * Further properties of the OAuth helper *)
Section oauth_paths.
Import oauth_helper oauth_environment.
Context `{GoogleAuth}.
Implicit Types (fs : files) (c : Credentials).

(** What [get_credentials] leaves on disk is what [_save_credentials] left
    of the credential it returns. *)
Lemma get_credentials_files fs c fs' out :
  get_credentials fs = (Some c, fs', out) → fs' = (_save_credentials c fs).1.
Proof.
  unfold get_credentials. intros Hget.
  repeat case_match; simplify_eq;
    match goal with Hs : _save_credentials _ _ = _ |- _ => by rewrite Hs end.
Qed.

(** X16. A credential obtained once is found again without interaction:
    when [get_credentials] returned a valid credential and could write the
    token file, and the library reads back what it writes, the next call
    loads that credential from the file and returns it, with no refresh
    request and no consent flow, and leaves the files as they are. *)
Theorem get_credentials_again fs c fs' out :
  get_credentials fs = (Some c, fs', out) →
  token_file_open_error fs = None →
  valid c = true →
  from_authorized_user_file (to_json c) = Returned c →
  get_credentials fs'
  = (Some c, fs',
     [oauth_helper.print Loaded_existing_OAuth_credentials; open_token_file_w;
      oauth_helper.print Credentials_saved]).
Proof.
  intros Hget Hopen Hvalid Hload.
  apply get_credentials_files in Hget. subst fs'.
  unfold _save_credentials. rewrite Hopen. simpl.
  unfold get_credentials, _save_credentials. simpl. by rewrite Hload, Hvalid.
Qed.

(** X17. [get_credentials] can return a credential that is not valid: a
    token file that loads as a credential which is not valid and is not
    both expired and refreshable is returned as loaded and written back,
    with no refresh request and no consent flow. *)
Theorem get_credentials_returns_invalid fs content c :
  token_file fs = Some content →
  from_authorized_user_file content = Returned c →
  valid c = false →
  expired c = false ∨ truthy (refresh_token c) = false →
  get_credentials fs
  = (Some c, (_save_credentials c fs).1,
     oauth_helper.print Loaded_existing_OAuth_credentials :: (_save_credentials c fs).2).
Proof.
  intros Hfile Hload Hvalid Hnot.
  unfold get_credentials. rewrite Hfile, Hload, Hvalid. simpl.
  assert (expired c && truthy (refresh_token c) = false) as ->.
  { destruct Hnot as [-> | ->]; [done|by rewrite andb_false_r]. }
  by destruct (_save_credentials c fs).
Qed.

(** X18. An expired credential with a refresh token is refreshed: when the
    request succeeds the refreshed credential is saved and returned and the
    consent flow is not run; when it raises, the error is printed and the
    call goes on exactly as [_run_oauth_flow] decides. *)
Theorem get_credentials_refresh fs content c :
  token_file fs = Some content →
  from_authorized_user_file content = Returned c →
  valid c = false → expired c = true → truthy (refresh_token c) = true →
  match refresh c with
  | Returned c' =>
      get_credentials fs
      = (Some c', (_save_credentials c' fs).1,
         [oauth_helper.print Loaded_existing_OAuth_credentials; refresh_request;
          oauth_helper.print Refreshed_OAuth_credentials] ++ (_save_credentials c' fs).2)
  | Raised e =>
      (get_credentials fs).1.1 = (_run_oauth_flow fs).1
      ∧ ∃ rest,
          (get_credentials fs).2
          = [oauth_helper.print Loaded_existing_OAuth_credentials; refresh_request;
             oauth_helper.print (Error_refreshing_credentials e)]
            ++ (_run_oauth_flow fs).2 ++ rest
  end.
Proof.
  intros Hfile Hload Hvalid Hexpired Htruthy.
  unfold get_credentials. rewrite Hfile, Hload, Hvalid, Hexpired, Htruthy. simpl.
  destruct (refresh c) as [c'|e]; simpl.
  - by destruct (_save_credentials c' fs).
  - destruct (_run_oauth_flow fs) as [[c'|] out_flow]; simpl.
    + destruct (_save_credentials c' fs) as [fs1 out3]. simpl.
      split; [done|]. by exists out3.
    + split; [done|]. exists []. by rewrite app_nil_r.
Qed.

(** X19. [setup_environment] answers True and points
    GOOGLE_APPLICATION_CREDENTIALS at the token file as soon as the consent
    flow gives a credential, also when the token file could not be
    written: with no token file before and [open] raising, the variable
    names a file that does not exist. *)
Theorem setup_environment_without_token_file token_file_path fs environ secrets c e :
  token_file fs = None →
  credentials_file fs = Some secrets →
  run_local_server secrets = Returned c →
  token_file_open_error fs = Some e →
  ∃ fs' environ' out,
    setup_environment token_file_path fs environ = (true, fs', environ', out)
    ∧ environ' !! "GOOGLE_APPLICATION_CREDENTIALS" = Some token_file_path
    ∧ token_file fs' = None.
Proof.
  intros Hfile Hsecrets Hflow Herr.
  unfold setup_environment, get_credentials, _run_oauth_flow, _save_credentials.
  rewrite Hfile, Hsecrets, Hflow, Herr. simpl.
  eexists _, _, _. split; [reflexivity|]. by rewrite lookup_insert_eq.
Qed.


End oauth_paths.

Lemma get_credentials_again_witness :
  let auth := oauth_samples.offline in
  oauth_helper.get_credentials (oauth_helper.mk_files None (Some "ya29.token") None)
  = (Some (oauth_helper.mkCredentials (Some "ya29.token") (Some "1//refresh") false true),
     oauth_helper.mk_files None (Some "ya29.token") None,
     [oauth_helper.print oauth_helper.Loaded_existing_OAuth_credentials;
      oauth_helper.open_token_file_w;
      oauth_helper.print oauth_helper.Credentials_saved]).
Proof.
  intros auth.
  apply (@get_credentials_again auth oauth_samples.saved_token
           (oauth_helper.mkCredentials (Some "ya29.token") (Some "1//refresh") false true)
           (oauth_helper.mk_files None (Some "ya29.token") None)
           [oauth_helper.print oauth_helper.Loaded_existing_OAuth_credentials;
            oauth_helper.open_token_file_w;
            oauth_helper.print oauth_helper.Credentials_saved]); reflexivity.
Defined.

Lemma get_credentials_returns_invalid_witness :
  let auth := oauth_samples.tokenless in
  let c := oauth_helper.mkCredentials None None false false in
  oauth_helper.get_credentials oauth_samples.saved_token
  = (Some c, (oauth_helper._save_credentials c oauth_samples.saved_token).1,
     oauth_helper.print oauth_helper.Loaded_existing_OAuth_credentials
       :: (oauth_helper._save_credentials c oauth_samples.saved_token).2).
Proof.
  intros auth c.
  apply (@get_credentials_returns_invalid auth oauth_samples.saved_token "ya29.token" c);
    try reflexivity.
  left. reflexivity.
Defined.

Lemma get_credentials_refresh_witness :
  let auth := oauth_samples.refreshing in
  let c' := oauth_helper.mkCredentials (Some "ya29.renewed") (Some "1//refresh") false true in
  oauth_helper.get_credentials oauth_samples.saved_token
  = (Some c', (oauth_helper._save_credentials c' oauth_samples.saved_token).1,
     [oauth_helper.print oauth_helper.Loaded_existing_OAuth_credentials;
      oauth_helper.refresh_request;
      oauth_helper.print oauth_helper.Refreshed_OAuth_credentials]
       ++ (oauth_helper._save_credentials c' oauth_samples.saved_token).2).
Proof.
  intros auth c'.
  apply (@get_credentials_refresh auth oauth_samples.saved_token "ya29.token"
           (oauth_helper.mkCredentials (Some "ya29.token") (Some "1//refresh") true false));
    reflexivity.
Defined.

Lemma setup_environment_without_token_file_witness :
  let auth := oauth_samples.consenting in
  ∃ fs' environ' out,
    oauth_environment.setup_environment "token.json" oauth_samples.read_only_project ∅
    = (true, fs', environ', out)
    ∧ environ' !! "GOOGLE_APPLICATION_CREDENTIALS" = Some "token.json"
    ∧ oauth_helper.token_file fs' = None.
Proof.
  intros auth.
  apply (@setup_environment_without_token_file auth "token.json"
           oauth_samples.read_only_project ∅ "{client secrets}"
           (oauth_helper.mkCredentials (Some "ya29.new") (Some "1//refresh") false true)
           "Permission denied"); reflexivity.
Defined.

(** * Configuration *)
Section config_facts.
Import Stdlib.Strings.Ascii.
Import config.

Lemma lower_char_t c : agent.lower_char c = "t"%char → c = "t"%char ∨ c = "T"%char.
Proof. destruct c as [[] [] [] [] [] [] [] []]; vm_compute; intros; try discriminate; auto. Qed.

Lemma lower_char_r c : agent.lower_char c = "r"%char → c = "r"%char ∨ c = "R"%char.
Proof. destruct c as [[] [] [] [] [] [] [] []]; vm_compute; intros; try discriminate; auto. Qed.

Lemma lower_char_u c : agent.lower_char c = "u"%char → c = "u"%char ∨ c = "U"%char.
Proof. destruct c as [[] [] [] [] [] [] [] []]; vm_compute; intros; try discriminate; auto. Qed.

Lemma lower_char_e c : agent.lower_char c = "e"%char → c = "e"%char ∨ c = "E"%char.
Proof. destruct c as [[] [] [] [] [] [] [] []]; vm_compute; intros; try discriminate; auto. Qed.

Lemma lower_true_iff s : agent.lower s = "true" ↔ s ∈ true_spellings.
Proof.
  split.
  - destruct s as [|c1 [|c2 [|c3 [|c4 [|c5 s]]]]]; simpl; try discriminate.
    intros [= [-> | ->]%lower_char_t [-> | ->]%lower_char_r
              [-> | ->]%lower_char_u [-> | ->]%lower_char_e];
      by apply (bool_decide_unpack _).
  - unfold true_spellings. intros Hs.
    repeat (apply elem_of_cons in Hs as [-> | Hs]; [reflexivity|]).
    by apply elem_of_nil in Hs.
Qed.

(** X21. [Config()] turns DEBUG on exactly when the variable DEBUG is set
    to "true" in some mix of upper and lower case; unset, empty or anything
    else ("1", "yes", " true") leaves it off. *)
Theorem Config_DEBUG_iff environ :
  DEBUG (__init__ environ) = true
  ↔ ∃ v, environ !! "DEBUG" = Some v ∧ v ∈ true_spellings.
Proof.
  unfold __init__, getenv_flag. simpl. rewrite bool_decide_eq_true, lower_true_iff.
  destruct (environ !! "DEBUG") as [v|]; simpl.
  - split; [by exists v|]. by intros (? & [= <-] & ?).
  - split; [|by intros (? & ? & ?)].
    intros Hin. exfalso. revert Hin. by apply (bool_decide_unpack _).
Qed.

End config_facts.

(** * The set-up of the extraction demo *)
Section langextract_setup.
Import config langextract_demo.
Implicit Types (environ : gmap string string) (cfg : Config).

Lemma remove_conflicting_environ var (st : gmap string string * list message) :
  (remove_conflicting var st).1 = delete var st.1.
Proof.
  unfold remove_conflicting. destruct (st.1 !! var) eqn:Hvar; [done|].
  by rewrite delete_id.
Qed.

Lemma truthy_inv (o : option string) :
  truthy o = true → ∃ c s, o = Some (String c s).
Proof. destruct o as [[|c s]|]; [done| |done]. by exists c, s. Qed.

(** What a successful [setup_oauth_credentials] leaves in [os.environ]. *)
Lemma setup_oauth_credentials_success environ :
  truthy (environ !! "GOOGLE_CLOUD_PROJECT") = true →
  truthy (environ !! "GOOGLE_CLOUD_LOCATION") = true →
  truthy (environ !! "GOOGLE_APPLICATION_CREDENTIALS") = true →
  ∃ out,
    setup_oauth_credentials environ
    = (Returned (),
       <["GOOGLE_GENAI_USE_VERTEXAI" :=
           str_bool (getenv_flag environ "GOOGLE_GENAI_USE_VERTEXAI" "False")]>
         (delete "GOOGLE_GENAI_API_KEY" (delete "GOOGLE_API_KEY" environ)),
       out).
Proof.
  intros (p1 & p' & Hp)%truthy_inv (l1 & l' & Hl)%truthy_inv (c1 & c' & Hc)%truthy_inv.
  unfold setup_oauth_credentials. rewrite Hp, Hl, Hc.
  destruct (foldl _ _ _) as [m1 out1] eqn:Hfold.
  assert (m1 = delete "GOOGLE_GENAI_API_KEY" (delete "GOOGLE_API_KEY" environ)) as Hm1.
  { apply (f_equal fst) in Hfold. simpl in Hfold.
    by rewrite !remove_conflicting_environ in Hfold. }
  assert (∀ k, k ≠ "GOOGLE_API_KEY" → k ≠ "GOOGLE_GENAI_API_KEY" →
               m1 !! k = environ !! k) as Hkeep.
  { intros k ? ?. subst m1. by rewrite !lookup_delete_ne. }
  set (flag := str_bool (getenv_flag environ "GOOGLE_GENAI_USE_VERTEXAI" "False")).
  assert (∃ out2,
    match m1 !! "LANGEXTRACT_API_KEY" with
    | Some (String k1 k') =>
        (<["LANGEXTRACT_API_KEY" := String k1 k']> m1,
         out1 ++ [Set_LANGEXTRACT_API_KEY_for_LangExtract])
    | _ => (m1, out1)
    end = (m1, out2)) as [out2 ->].
  { destruct (m1 !! "LANGEXTRACT_API_KEY") as [[|k1 k']|] eqn:Hk; try by eexists.
    rewrite insert_id by done. by eexists. }
  rewrite (insert_id (<["GOOGLE_GENAI_USE_VERTEXAI" := flag]> m1) "GOOGLE_CLOUD_PROJECT").
  2:{ rewrite lookup_insert_ne by done. by rewrite Hkeep. }
  rewrite (insert_id (<["GOOGLE_GENAI_USE_VERTEXAI" := flag]> m1) "GOOGLE_CLOUD_LOCATION").
  2:{ rewrite lookup_insert_ne by done. by rewrite Hkeep. }
  rewrite (insert_id (<["GOOGLE_GENAI_USE_VERTEXAI" := flag]> m1)
             "GOOGLE_APPLICATION_CREDENTIALS").
  2:{ rewrite lookup_insert_ne by done. by rewrite Hkeep. }
  destruct (environ !! "GOOGLE_GENAI_PROJECT_ID") as [[|g1 g']|] eqn:Hg;
    try (subst m1; by eexists).
  rewrite insert_id; [subst m1; by eexists|].
  rewrite lookup_insert_ne by done. by rewrite Hkeep.
Qed.

(** X22. [setup_oauth_credentials] raises ValueError, leaving [os.environ]
    as it is, when the project, the location or the credentials path is
    unset or empty.  Otherwise all it changes in [os.environ] is: the two
    conflicting API keys are removed and GOOGLE_GENAI_USE_VERTEXAI is
    rewritten as "True" or "False"; every other variable keeps its
    value. *)
Theorem setup_oauth_credentials_environ environ :
  if truthy (environ !! "GOOGLE_CLOUD_PROJECT")
     && truthy (environ !! "GOOGLE_CLOUD_LOCATION")
     && truthy (environ !! "GOOGLE_APPLICATION_CREDENTIALS")
  then
    ∃ environ' out,
      setup_oauth_credentials environ = (Returned (), environ', out)
      ∧ environ' !! "GOOGLE_API_KEY" = None
      ∧ environ' !! "GOOGLE_GENAI_API_KEY" = None
      ∧ environ' !! "GOOGLE_GENAI_USE_VERTEXAI"
        = Some (str_bool (getenv_flag environ "GOOGLE_GENAI_USE_VERTEXAI" "False"))
      ∧ ∀ k, k ≠ "GOOGLE_API_KEY" → k ≠ "GOOGLE_GENAI_API_KEY" →
             k ≠ "GOOGLE_GENAI_USE_VERTEXAI" → environ' !! k = environ !! k
  else
    setup_oauth_credentials environ
    = (Raised "Missing required ADC configuration in .env file", environ, []).
Proof.
  destruct (truthy (environ !! "GOOGLE_CLOUD_PROJECT")) eqn:Hp;
    [destruct (truthy (environ !! "GOOGLE_CLOUD_LOCATION")) eqn:Hl;
     [destruct (truthy (environ !! "GOOGLE_APPLICATION_CREDENTIALS")) eqn:Hc|]|];
    simpl.
  - destruct (setup_oauth_credentials_success environ Hp Hl Hc) as [out ->].
    eexists _, _. split; [reflexivity|]. split_and!.
    + rewrite lookup_insert_ne by done. rewrite lookup_delete_ne by done.
      apply lookup_delete_eq.
    + rewrite lookup_insert_ne by done. apply lookup_delete_eq.
    + apply lookup_insert_eq.
    + intros k ? ? ?. rewrite lookup_insert_ne by done. by rewrite !lookup_delete_ne.
  - unfold setup_oauth_credentials.
    destruct (environ !! "GOOGLE_CLOUD_PROJECT") as [[|??]|],
             (environ !! "GOOGLE_CLOUD_LOCATION") as [[|??]|],
             (environ !! "GOOGLE_APPLICATION_CREDENTIALS") as [[|??]|]; done.
  - unfold setup_oauth_credentials.
    destruct (environ !! "GOOGLE_CLOUD_PROJECT") as [[|??]|],
             (environ !! "GOOGLE_CLOUD_LOCATION") as [[|??]|]; done.
  - unfold setup_oauth_credentials.
    destruct (environ !! "GOOGLE_CLOUD_PROJECT") as [[|??]|]; done.
Qed.

(** X23. The choice between the two set-ups is stable: when the set-up
    chosen by GOOGLE_GENAI_USE_VERTEXAI succeeds, the environment it leaves
    selects the same set-up again, and running it again succeeds and
    changes nothing more. *)
Theorem configure_idempotent cfg environ environ' out :
  configure cfg environ = (Returned (), environ', out) →
  getenv_flag environ' "GOOGLE_GENAI_USE_VERTEXAI" "False"
  = getenv_flag environ "GOOGLE_GENAI_USE_VERTEXAI" "False"
  ∧ ∃ out', configure cfg environ' = (Returned (), environ', out').
Proof.
  unfold configure.
  destruct (getenv_flag environ "GOOGLE_GENAI_USE_VERTEXAI" "False") eqn:Hflag.
  - intros Hrun.
    destruct (truthy (environ !! "GOOGLE_CLOUD_PROJECT")) eqn:Hp.
    2:{ unfold setup_oauth_credentials in Hrun.
        by destruct (environ !! "GOOGLE_CLOUD_PROJECT") as [[|??]|]. }
    destruct (truthy (environ !! "GOOGLE_CLOUD_LOCATION")) eqn:Hl.
    2:{ unfold setup_oauth_credentials in Hrun.
        by destruct (environ !! "GOOGLE_CLOUD_PROJECT") as [[|??]|],
                    (environ !! "GOOGLE_CLOUD_LOCATION") as [[|??]|]. }
    destruct (truthy (environ !! "GOOGLE_APPLICATION_CREDENTIALS")) eqn:Hc.
    2:{ unfold setup_oauth_credentials in Hrun.
        by destruct (environ !! "GOOGLE_CLOUD_PROJECT") as [[|??]|],
                    (environ !! "GOOGLE_CLOUD_LOCATION") as [[|??]|],
                    (environ !! "GOOGLE_APPLICATION_CREDENTIALS") as [[|??]|]. }
    destruct (setup_oauth_credentials_success environ Hp Hl Hc) as [out0 Heq].
    rewrite Heq, Hflag in Hrun. injection Hrun as <- <-. simpl.
    assert (getenv_flag
              (<["GOOGLE_GENAI_USE_VERTEXAI" := "True"]>
                 (delete "GOOGLE_GENAI_API_KEY" (delete "GOOGLE_API_KEY" environ)))
              "GOOGLE_GENAI_USE_VERTEXAI" "False" = true) as Hflag'.
    { unfold getenv_flag. by rewrite lookup_insert_eq. }
    rewrite Hflag'. split; [done|].
    edestruct (setup_oauth_credentials_success
                 (<["GOOGLE_GENAI_USE_VERTEXAI" := "True"]>
                    (delete "GOOGLE_GENAI_API_KEY" (delete "GOOGLE_API_KEY" environ))))
      as [out' ->].
    + rewrite lookup_insert_ne by done. by rewrite !lookup_delete_ne.
    + rewrite lookup_insert_ne by done. by rewrite !lookup_delete_ne.
    + rewrite lookup_insert_ne by done. by rewrite !lookup_delete_ne.
    + exists out'. rewrite Hflag'. simpl. do 2 f_equal.
      apply map_eq. intros k.
      destruct (decide (k = "GOOGLE_GENAI_USE_VERTEXAI")) as [->|?];
        [by rewrite !lookup_insert_eq|].
      rewrite !lookup_insert_ne by done.
      destruct (decide (k = "GOOGLE_GENAI_API_KEY")) as [->|?];
        [by rewrite !lookup_delete_eq|].
      rewrite !(lookup_delete_ne _ "GOOGLE_GENAI_API_KEY") by done.
      destruct (decide (k = "GOOGLE_API_KEY")) as [->|?];
        [by rewrite !lookup_delete_eq|].
      rewrite !(lookup_delete_ne _ "GOOGLE_API_KEY") by done.
      rewrite lookup_insert_ne by done.
      by rewrite !lookup_delete_ne.
  - unfold setup_api_key.
    destruct (GOOGLE_API_KEY cfg) as [[|k1 k']|]; [done| |done].
    intros [= <- <-].
    assert (getenv_flag
              (delete "GOOGLE_GENAI_USE_VERTEXAI"
                 (<["LANGEXTRACT_API_KEY" := String k1 k']> environ))
              "GOOGLE_GENAI_USE_VERTEXAI" "False" = false) as Hflag'.
    { unfold getenv_flag. by rewrite lookup_delete_eq. }
    rewrite Hflag'. split; [done|]. eexists. do 2 f_equal.
    rewrite insert_id.
    + by rewrite delete_id by apply lookup_delete_eq.
    + rewrite lookup_delete_ne by done. apply lookup_insert_eq.
Qed.

Lemma configure_idempotent_witness :
  let cfg := __init__ {[ "GOOGLE_API_KEY" := "AIza-key" ]} in
  let environ' := delete "GOOGLE_GENAI_USE_VERTEXAI"
                    (<["LANGEXTRACT_API_KEY" := "AIza-key"]>
                       {[ "GOOGLE_API_KEY" := "AIza-key";
                          "GOOGLE_GENAI_USE_VERTEXAI" := "no" ]}) in
  getenv_flag environ' "GOOGLE_GENAI_USE_VERTEXAI" "False"
  = getenv_flag {[ "GOOGLE_API_KEY" := "AIza-key"; "GOOGLE_GENAI_USE_VERTEXAI" := "no" ]}
      "GOOGLE_GENAI_USE_VERTEXAI" "False"
  ∧ ∃ out', configure cfg environ' = (Returned (), environ', out').
Proof.
  intros cfg environ'.
  apply (configure_idempotent cfg
           {[ "GOOGLE_API_KEY" := "AIza-key"; "GOOGLE_GENAI_USE_VERTEXAI" := "no" ]}
           environ'
           [Configured_for_AI_Studio_with_API_key; Using_Generative_Language_API_endpoint]).
  by vm_compute.
Defined.

End langextract_setup.

(** * The display of extraction results *)
Section display_facts.
Import langextract_results.
Implicit Types (x : Extraction) (xs ys : list Extraction)
  (g : list (string * list Extraction)) (c : string).

Lemma append_to_keys c x g :
  (append_to c x g).*1 = if decide (c ∈ g.*1) then g.*1 else g.*1 ++ [c].
Proof.
  induction g as [|[k ys] g IH].
  - done.
  - cbn [append_to]. destruct (decide (c = k)) as [->|Hne].
    + rewrite decide_True; [done|]. rewrite fmap_cons. apply list_elem_of_here.
    + rewrite !fmap_cons, IH. cbn [fst].
      destruct (decide (c ∈ g.*1)) as [Hin|Hn].
      * rewrite decide_True; [done|]. by apply list_elem_of_further.
      * rewrite decide_False; [done|]. by intros [?|?]%elem_of_cons.
Qed.

Lemma append_to_elem c x g c' ys' :
  NoDup g.*1 → (c', ys') ∈ append_to c x g →
  (c' ≠ c ∧ (c', ys') ∈ g)
  ∨ (c' = c ∧ ((∃ ys, (c, ys) ∈ g ∧ ys' = ys ++ [x]) ∨ ((c ∉ g.*1) ∧ ys' = [x]))).
Proof.
  induction g as [|[k ys] g IH]; simpl.
  - intros _ [= -> ->]%list_elem_of_singleton. right. split; [done|]. right.
    split; [apply not_elem_of_nil|done].
  - rewrite NoDup_cons. intros [Hk Hnd].
    destruct (decide (c = k)) as [->|Hne].
    + intros [[= -> ->]|Hin]%elem_of_cons.
      * right. split; [done|]. left. exists ys. split; [apply list_elem_of_here|done].
      * left. split; [|by apply list_elem_of_further].
        intros ->. apply Hk. apply list_elem_of_fmap. by exists (k, ys').
    + intros [[= -> ->]|Hin]%elem_of_cons.
      * left. split; [done|apply list_elem_of_here].
      * destruct (IH Hnd Hin) as [[? ?]|[-> [(ys0 & ? & ->)|[? ->]]]].
        -- left. split; [done|by apply list_elem_of_further].
        -- right. split; [done|]. left. exists ys0. split; [by apply list_elem_of_further|done].
        -- right. split; [done|]. right. split; [|done].
           by intros [?|?]%elem_of_cons.
Qed.

Lemma append_to_concat c x g :
  concat (append_to c x g).*2 ≡ₚ x :: concat g.*2.
Proof.
  induction g as [|[k ys] g IH]; simpl; [done|].
  destruct (decide (c = k)) as [->|Hne]; simpl.
  - rewrite <- app_assoc. simpl. by rewrite <- Permutation_middle.
  - rewrite IH. by rewrite <- Permutation_middle.
Qed.

Lemma grouped_step xs g x :
  grouped xs g → grouped (xs ++ [x]) (append_to (extraction_class x) x g).
Proof.
  intros (Hnd & Hmem & Hkeys & Hperm). split_and!.
  - rewrite append_to_keys. destruct (decide _) as [_|Hn]; [done|].
    apply NoDup_app. split_and!; [done| |apply NoDup_singleton].
    intros k Hk ->%list_elem_of_singleton. done.
  - intros c ys Hin. rewrite filter_app, filter_cons, filter_nil.
    apply append_to_elem in Hin as [[Hne Hin]|[-> [(ys0 & Hin & ->)|[Hn ->]]]]; [| | |done].
    + destruct (Hmem _ _ Hin) as [? ->]. split; [done|].
      destruct (decide _) as [Heq|_]; [by destruct Hne|by rewrite app_nil_r].
    + destruct (Hmem _ _ Hin) as [? ->]. split; [by destruct (filter _ xs)|].
      by destruct (decide _).
    + split; [done|]. destruct (decide _) as [_|?]; [|done].
      assert (filter (λ x0, extraction_class x0 = extraction_class x) xs = []) as ->; [|done].
      destruct (filter _ xs) as [|y ?] eqn:Hf; [done|]. exfalso. apply Hn.
      assert (y ∈ filter (λ x0, extraction_class x0 = extraction_class x) xs)
        as [<- ?]%list_elem_of_filter by (rewrite Hf; apply list_elem_of_here).
      by apply Hkeys.
  - intros y [Hy| ->%list_elem_of_singleton]%elem_of_app; rewrite append_to_keys;
      destruct (decide _) as [?|?]; try done.
    + by apply Hkeys.
    + apply elem_of_app. left. by apply Hkeys.
    + apply elem_of_app. right. apply list_elem_of_here.
  - rewrite append_to_concat, Hperm. by rewrite <- Permutation_cons_append.
Qed.

Lemma grouped_group xs : grouped xs (group xs).
Proof.
  unfold group.
  assert (∀ seen g, grouped seen g →
            grouped (seen ++ xs)
              (foldl (λ grouped_results x, append_to (extraction_class x) x grouped_results)
                     g xs)) as Hfold.
  { induction xs as [|x xs IH]; intros seen g Hg; simpl; [by rewrite app_nil_r|].
    replace (seen ++ x :: xs) with ((seen ++ [x]) ++ xs) by (by rewrite <- app_assoc).
    apply IH. by apply grouped_step. }
  apply (Hfold [] []). split_and!; try done; [constructor|by intros ?? ?%elem_of_nil|by intros ? ?%elem_of_nil].
Qed.

(** X24. The grouping of [display_results] has one group per extraction
    class; the group of a class holds exactly the extractions of that
    class, in the order they came, and is never empty. *)
Theorem group_by_class xs :
  NoDup (group xs).*1
  ∧ (∀ c ys, (c, ys) ∈ group xs →
       ys ≠ [] ∧ ys = filter (λ x, extraction_class x = c) xs)
  ∧ (∀ x, x ∈ xs → extraction_class x ∈ (group xs).*1).
Proof. destruct (grouped_group xs) as (? & ? & ? & _). done. Qed.

Lemma item_texts_app (out1 out2 : list line) :
  item_texts (out1 ++ out2) = item_texts out1 ++ item_texts out2.
Proof. apply omap_app. Qed.

Lemma found_counts_app (out1 out2 : list line) :
  found_counts (out1 ++ out2) = found_counts out1 ++ found_counts out2.
Proof. apply omap_app. Qed.

Lemma item_texts_display_extractions i ys :
  item_texts (display_extractions i ys) = extraction_text <$> ys
  ∧ found_counts (display_extractions i ys) = [].
Proof.
  revert i. induction ys as [|y ys IH]; intros i; [done|].
  destruct (IH (S i)) as [IH1 IH2]. cbn [display_extractions].
  rewrite !item_texts_app, !found_counts_app, IH1, IH2.
  by destruct (attributes y) as [[|??]|], (char_interval y).
Qed.

Lemma item_texts_groups g :
  item_texts (g ≫= display_group) = extraction_text <$> concat g.*2
  ∧ sum_list (found_counts (g ≫= display_group)) = length (concat g.*2).
Proof.
  induction g as [|[k ys] g [IH1 IH2]]; [done|].
  destruct (item_texts_display_extractions 1 ys) as [H1 H2].
  rewrite bind_cons, item_texts_app, found_counts_app, IH1. unfold display_group.
  cbn [fst snd]. rewrite item_texts_app, found_counts_app, H1, H2.
  rewrite !fmap_cons. cbn [concat snd].
  rewrite fmap_app, length_app. split; [done|].
  cbn. f_equal. exact IH2.
Qed.

(** X25. [display_results] numbers every extraction of the result exactly
    once: the texts of the numbered lines are those of the extractions, up
    to the order of the groups, and the counts announced add up to the
    number of extractions. *)
Theorem display_results_lists_each_once xs :
  ∃ out,
    display_results (Some (is_list xs)) = (Returned (), out)
    ∧ item_texts out ≡ₚ extraction_text <$> xs
    ∧ sum_list (found_counts out) = length xs.
Proof.
  eexists. split; [reflexivity|].
  destruct (item_texts_groups (group xs)) as [-> ->].
  destruct (grouped_group xs) as (_ & _ & _ & Hperm).
  by rewrite Hperm.
Qed.

End display_facts.

(** * The setup script *)
Section setup_facts.
Import setup.
Context `{OS}.
Implicit Types (w : world) (out : list event).

Lemma commands_app out1 out2 : commands (out1 ++ out2) = commands out1 ++ commands out2.
Proof. apply omap_app. Qed.

(** [run_command] runs its command once, whatever comes of it. *)
Lemma run_command_commands command description check_success w :
  commands (run_command command description check_success w).2 = [command].
Proof.
  unfold run_command.
  destruct (subprocess_run command w) as [[result|e] w']; [|done].
  destruct (check_success && _); [done|]. simpl.
  by destruct (decide _).
Qed.

(** Without [check_success], only an exception makes [run_command] answer
    False: the return code is not looked at. *)
Lemma run_command_unchecked command description w :
  (run_command command description false w).1.1 = true
  ↔ ∃ result w', subprocess_run command w = (Returned result, w').
Proof.
  unfold run_command.
  destruct (subprocess_run command w) as [[result|e] w']; simpl.
  - split; [by eexists _, _|done].
  - split; [done|]. by intros (? & ? & ?).
Qed.

Lemma check_prerequisites_loop ps w missing out :
  commands (foldl check_one (w, missing, out) ps).2
  = commands out ++ ((λ p, ("which " ++ p.1)%string) <$> ps)
  ∧ ((∀ command w0, ∃ result w', subprocess_run command w0 = (Returned result, w')) →
     (foldl check_one (w, missing, out) ps).1.2 = missing).
Proof.
  revert w missing out. induction ps as [|[cmd name] ps IH]; intros w missing out.
  { simpl. by rewrite app_nil_r. }
  cbn [foldl check_one].
  pose proof (run_command_commands ("which " ++ cmd)%string ("Checking " ++ name)%string
                false w) as Hc.
  pose proof (run_command_unchecked ("which " ++ cmd)%string ("Checking " ++ name)%string w)
    as Hu.
  destruct (run_command ("which " ++ cmd)%string ("Checking " ++ name)%string false w)
    as [[ok w'] out'].
  simpl in Hc, Hu. destruct (IH w' (if ok then missing else missing ++ [name]) (out ++ out'))
    as [IH1 IH2].
  split.
  - rewrite IH1, commands_app, Hc, <- app_assoc. done.
  - intros Hret. rewrite IH2 by done.
    destruct ok; [done|]. exfalso.
    destruct (Hret ("which " ++ cmd)%string w) as (? & ? & Hr).
    assert (false = true) by (apply Hu; eauto). done.
Qed.

(** X26. [check_prerequisites] does not check: because the five [which]
    commands are run with [check_success=False], their return codes are
    ignored, and as long as none of them raises the answer is True and the
    last line printed says that all prerequisites are installed. *)
Theorem check_prerequisites_ignores_return_codes w :
  (∀ command w0, ∃ result w', subprocess_run command w0 = (Returned result, w')) →
  ∃ w' out,
    check_prerequisites w
    = (true, w', out ++ [print All_prerequisites_are_installed])
    ∧ commands out
      = ["which python3"; "which uv"; "which docker"; "which node"; "which npm"].
Proof.
  intros Hret. unfold check_prerequisites.
  destruct (check_prerequisites_loop prerequisites w [] [print Checking_prerequisites])
    as [Hcmds Hmissing].
  specialize (Hmissing Hret).
  destruct (foldl check_one _ prerequisites) as [[w' missing] out]. simpl in *.
  subst missing. by eexists _, _.
Qed.

(** The commands of the three steps. *)
Lemma check_prerequisites_commands w :
  commands (check_prerequisites w).2
  = ["which python3"; "which uv"; "which docker"; "which node"; "which npm"].
Proof.
  unfold check_prerequisites.
  destruct (check_prerequisites_loop prerequisites w [] [print Checking_prerequisites])
    as [Hcmds _].
  destruct (foldl check_one _ prerequisites) as [[w' missing] out]. simpl in *.
  destruct missing; simpl; by rewrite commands_app, Hcmds, app_nil_r.
Qed.

Lemma setup_environment_commands w :
  commands (setup_environment w).2 = ["uv sync"].
Proof.
  unfold setup_environment.
  pose proof (run_command_commands "uv sync" "Installing Python dependencies" true w) as Hc.
  destruct (run_command _ _ _ _) as [[ok w'] out]. simpl in Hc.
  destruct ok; simpl; [|done].
  destruct (os_path_exists ".env" w'); simpl; [done|].
  change (commands (print Setting_up_project_environment :: out ++ _))
    with (commands (out ++ [print env_file_not_found; print Copy_env_example_to_env;
                            print Add_your_OpenAI_API_key;
                            print Add_your_Supabase_URL_and_key])).
  by rewrite commands_app, Hc.
Qed.

Lemma setup_supabase_commands w :
  commands (setup_supabase w).2 = ["npm install supabase --save-dev"]
  ∨ commands (setup_supabase w).2
    = ["npm install supabase --save-dev"; "npx supabase init"].
Proof.
  unfold setup_supabase.
  pose proof (run_command_commands "npm install supabase --save-dev"
                "Installing Supabase CLI" true w) as Hc1.
  destruct (run_command _ _ _ w) as [[ok1 w1] out1]. simpl in Hc1.
  destruct ok1; simpl; [|by left].
  destruct (os_path_exists "supabase" w1); simpl.
  - left. change (commands (print Setting_up_Supabase :: out1 ++ supabase_next_steps))
      with (commands (out1 ++ supabase_next_steps)).
    by rewrite commands_app, Hc1.
  - pose proof (run_command_commands "npx supabase init"
                  "Initializing Supabase project" true w1) as Hc2.
    destruct (run_command _ _ _ w1) as [[ok2 w2] out2]. simpl in Hc2.
    right. destruct ok2; simpl.
    + change (commands (print Setting_up_Supabase :: out1 ++ out2 ++ supabase_next_steps))
        with (commands (out1 ++ out2 ++ supabase_next_steps)).
      by rewrite !commands_app, Hc1, Hc2.
    + change (commands (print Setting_up_Supabase :: out1 ++ out2))
        with (commands (out1 ++ out2)).
      by rewrite !commands_app, Hc1, Hc2.
Qed.

(** None of the three steps prints the closing message of [main]. *)
Lemma run_command_not_completed command description check_success w :
  print Setup_completed_successfully ∉ (run_command command description check_success w).2.
Proof.
  unfold run_command.
  destruct (subprocess_run command w) as [[result|e] w']; [|simpl; event_not_in].
  destruct (check_success && _); simpl; [event_not_in|].
  destruct (decide _); event_not_in.
Qed.

Lemma check_prerequisites_loop_not_completed ps w missing out :
  print Setup_completed_successfully ∉ out →
  print Setup_completed_successfully ∉ (foldl check_one (w, missing, out) ps).2.
Proof.
  revert w missing out. induction ps as [|[cmd name] ps IH]; intros w missing out Hout.
  { done. }
  cbn [foldl check_one].
  pose proof (run_command_not_completed ("which " ++ cmd)%string
                ("Checking " ++ name)%string false w) as Hc.
  destruct (run_command ("which " ++ cmd)%string ("Checking " ++ name)%string false w)
    as [[ok w'] out'].
  apply IH. rewrite not_elem_of_app. by split.
Qed.

Lemma check_prerequisites_not_completed w :
  print Setup_completed_successfully ∉ (check_prerequisites w).2.
Proof.
  unfold check_prerequisites.
  pose proof (check_prerequisites_loop_not_completed prerequisites w []
                [print Checking_prerequisites] ltac:(event_not_in)) as Hloop.
  destruct (foldl check_one _ prerequisites) as [[w' missing] out]. simpl in Hloop.
  destruct missing; simpl; rewrite not_elem_of_app; (split; [done|event_not_in]).
Qed.

Lemma setup_environment_not_completed w :
  print Setup_completed_successfully ∉ (setup_environment w).2.
Proof.
  unfold setup_environment.
  pose proof (run_command_not_completed "uv sync" "Installing Python dependencies" true w)
    as Hc.
  destruct (run_command _ _ _ _) as [[ok w'] out]. simpl in Hc.
  destruct ok; simpl.
  - destruct (os_path_exists ".env" w'); simpl;
      (apply not_elem_of_cons; split; [discriminate|]); [done|].
    rewrite not_elem_of_app. split; [done|event_not_in].
  - apply not_elem_of_cons. by split.
Qed.

Lemma setup_supabase_not_completed w :
  print Setup_completed_successfully ∉ (setup_supabase w).2.
Proof.
  unfold setup_supabase.
  pose proof (run_command_not_completed "npm install supabase --save-dev"
                "Installing Supabase CLI" true w) as Hc1.
  destruct (run_command _ _ _ w) as [[ok1 w1] out1]. simpl in Hc1.
  assert (print Setup_completed_successfully ∉ supabase_next_steps) as Hnext.
  { unfold supabase_next_steps. event_not_in. }
  destruct ok1; simpl; [|apply not_elem_of_cons; by split].
  destruct (os_path_exists "supabase" w1); simpl.
  { apply not_elem_of_cons. split; [discriminate|]. rewrite not_elem_of_app. by split. }
  pose proof (run_command_not_completed "npx supabase init"
                "Initializing Supabase project" true w1) as Hc2.
  destruct (run_command _ _ _ w1) as [[ok2 w2] out2]. simpl in Hc2.
  destruct ok2; simpl; (apply not_elem_of_cons; split; [discriminate|]);
    rewrite !not_elem_of_app; by split_and!.
Qed.

(** X27. The setup script stops at the first step that fails.  With the
    three steps taken in the order of the source, each on the machine as the
    one before left it: the exit status is 0 when all three return True and
    1 otherwise; when [check_prerequisites] returns False only the five
    [which] commands were run; when [setup_environment] returns False only
    [uv sync] was run after them, so that no npm or npx command is run; when
    [setup_supabase] is reached, [npm install] was run and, possibly, [npx
    supabase init]; in each case the machine is left as the last step run
    left it, and the closing message "Setup completed successfully" is
    printed exactly when the exit status is 0. *)
Theorem main_stops_at_first_failure w :
  let step1 := check_prerequisites w in
  let step2 := setup_environment step1.1.2 in
  let step3 := setup_supabase step2.1.2 in
  ((main w).1.1 = 0 ↔ step1.1.1 = true ∧ step2.1.1 = true ∧ step3.1.1 = true)
  ∧ ((main w).1.1 = 0 ∨ (main w).1.1 = 1)
  ∧ (step1.1.1 = false →
     (main w).1.2 = step1.1.2
     ∧ commands (main w).2
       = ["which python3"; "which uv"; "which docker"; "which node"; "which npm"])
  ∧ (step1.1.1 = true → step2.1.1 = false →
     (main w).1.2 = step2.1.2
     ∧ commands (main w).2
       = ["which python3"; "which uv"; "which docker"; "which node"; "which npm";
          "uv sync"])
  ∧ (step1.1.1 = true → step2.1.1 = true →
     (main w).1.2 = step3.1.2
     ∧ (commands (main w).2 = take 7 all_commands ∨ commands (main w).2 = all_commands))
  ∧ (print Setup_completed_successfully ∈ (main w).2 ↔ (main w).1.1 = 0)
  ∧ commands (main w).2 `prefix_of` all_commands.
Proof.
  unfold main.
  pose proof (check_prerequisites_commands w) as H1.
  pose proof (check_prerequisites_not_completed w) as N1.
  destruct (check_prerequisites w) as [[ok1 w1] out1]. simpl in H1, N1.
  assert (Hstart : ∀ out, print Setup_completed_successfully ∉ out →
            print Setup_completed_successfully
              ∉ [print DB_Agent_Setup_Script; print rule_40] ++ out).
  { intros out Hout. simpl. do 2 (apply not_elem_of_cons; split; [discriminate|]). done. }
  destruct ok1; cbn [negb fst snd].
  2:{ change (commands ([print DB_Agent_Setup_Script; print rule_40] ++ out1))
        with (commands out1).
      rewrite H1. split_and!; try done.
      - split; [done|]. by intros (? & _).
      - by right.
      - split; [|done]. intros Hin. by destruct (Hstart out1 N1).
      - by eexists. }
  pose proof (setup_environment_commands w1) as H2.
  pose proof (setup_environment_not_completed w1) as N2.
  destruct (setup_environment w1) as [[ok2 w2] out2]. simpl in H2, N2.
  destruct ok2; cbn [negb fst snd].
  2:{ change (commands ([print DB_Agent_Setup_Script; print rule_40] ++ out1 ++ out2))
        with (commands (out1 ++ out2)).
      rewrite commands_app, H1, H2. split_and!; try done.
      - split; [done|]. by intros (_ & ? & _).
      - by right.
      - split; [|done]. intros Hin. destruct (Hstart (out1 ++ out2)); [|done].
        rewrite not_elem_of_app. by split.
      - by eexists. }
  pose proof (setup_supabase_commands w2) as H3.
  pose proof (setup_supabase_not_completed w2) as N3.
  destruct (setup_supabase w2) as [[ok3 w3] out3]. simpl in H3, N3.
  destruct ok3; cbn [negb fst snd].
  - change (commands ([print DB_Agent_Setup_Script; print rule_40]
                        ++ out1 ++ out2 ++ out3 ++ ?tail))
      with (commands (out1 ++ out2 ++ out3 ++ tail)).
    rewrite !commands_app, H1, H2.
    assert (print Setup_completed_successfully
              ∈ [print DB_Agent_Setup_Script; print rule_40] ++ out1 ++ out2 ++ out3
                ++ [print Setup_completed_successfully; print Next_steps;
                    print Complete_the_Supabase_setup; print Run_uv_run_python_agent_py;
                    print Or_test_with_uv_run_python_test_agent_py]) as Hin.
    { rewrite !elem_of_app. do 4 right. apply list_elem_of_here. }
    destruct H3 as [-> | ->]; simpl; split_and!; try done; try (by left);
      try (by right); try (by eexists);
      intros _ _; (split; [done|]); first [by left | by right].
  - change (commands ([print DB_Agent_Setup_Script; print rule_40] ++ out1 ++ out2 ++ out3))
      with (commands (out1 ++ out2 ++ out3)).
    rewrite !commands_app, H1, H2.
    assert (print Setup_completed_successfully
              ∉ [print DB_Agent_Setup_Script; print rule_40] ++ out1 ++ out2 ++ out3)
      as Hnin.
    { apply Hstart. rewrite !not_elem_of_app. by split_and!. }
    assert ((1 = 0 ↔ true = true ∧ true = true ∧ false = true)) as Hexit.
    { split; [done|]. by intros (_ & _ & ?). }
    destruct H3 as [-> | ->]; simpl; split_and!; try done; try (by left);
      try (by right); try (by eexists);
      intros _ _; (split; [done|]); first [by left | by right].
Qed.

End setup_facts.

Lemma check_prerequisites_ignores_return_codes_witness :
  let os := setup_samples.bare in
  ∃ w' out,
    setup.check_prerequisites (() : setup.world)
    = (true, w', out ++ [setup.print setup.All_prerequisites_are_installed])
    ∧ setup.commands out
      = ["which python3"; "which uv"; "which docker"; "which node"; "which npm"].
Proof.
  intros os.
  apply (@check_prerequisites_ignores_return_codes os ()).
  intros command w0. by eexists _, _.
Defined.
